(** * A shallow embedding of parts of xalbrain (cell models, cell solvers,
    monodomain solver, time utilities) and proofs of their specification. *)

From Stdlib Require Import List String Bool Arith Lia ZArith QArith Qround Lqa Floats.
Import ListNotations.

Set Warnings "-inexact-float -register-all".

(* ------------------------------------------------------------------------- *)
(** ** Python exceptions and a small error monad *)

Inductive py_error : Type :=
| AssertionError
| KeyError
| IndexError
| TypeError
| ValueError (msg : string)
| AttributeError (name : string)
| UnboundLocalError (name : string).

Inductive result (A : Type) : Type :=
| Ok (a : A)
| Err (e : py_error).
Arguments Ok {A} a.
Arguments Err {A} e.

Definition bind {A B : Type} (c : result A) (k : A -> result B) : result B :=
  match c with
  | Ok a => k a
  | Err e => Err e
  end.

Notation "x <- c ;; k" := (bind c (fun x => k))
  (at level 61, c at next level, right associativity).

Definition is_err {A : Type} (r : result A) : bool :=
  match r with Ok _ => false | Err _ => true end.

(* ------------------------------------------------------------------------- *)
(** ** [beatadjoint/utils.py]: the end-of-time test, on IEEE binary64 floats *)

Module BeatUtils.
Open Scope float_scope.

(** [dolfin.DOLFIN_EPS] *)
Definition DOLFIN_EPS : float := 3.0e-16.

(** [end_of_time(T, t0, t1, dt)]: [(t1 + dt) > (T + DOLFIN_EPS)]; the
    [dolfin.info] call only logs. [t0] is not used. *)
Definition end_of_time (T t0 t1 dt : float) : bool :=
  (T + DOLFIN_EPS) <? (t1 + dt).

End BeatUtils.

(* ------------------------------------------------------------------------- *)
(** ** [xalbrain/monodomainsolver.py]: [MonodomainSolver.step] and its
    timestep cache *)

Module Monodomain.
Open Scope float_scope.

Inductive linear_solver_type := Direct | Iterative.

(** The parameters [step] and the update routines read. *)
Record params := {
  theta : float;
  linear_solver_type_ : linear_solver_type;
  use_custom_preconditioner : bool
}.

(** The solver's mutable state: the stored timestep [self._timestep], the
    shared [time] constant, and how many times each assembly/solve of the
    external engine was invoked. *)
Record state := {
  timestep : float;
  time : float;
  lhs_assemblies : nat;
  prec_assemblies : nat;
  rhs_assemblies : nat;
  linear_solves : nat
}.

Definition set_timestep (s : state) (dt : float) : state :=
  {| timestep := dt; time := time s; lhs_assemblies := lhs_assemblies s;
     prec_assemblies := prec_assemblies s; rhs_assemblies := rhs_assemblies s;
     linear_solves := linear_solves s |}.

Definition set_time (s : state) (t : float) : state :=
  {| timestep := timestep s; time := t; lhs_assemblies := lhs_assemblies s;
     prec_assemblies := prec_assemblies s; rhs_assemblies := rhs_assemblies s;
     linear_solves := linear_solves s |}.

(** [df.assemble(self._lhs, tensor=self._lhs_matrix)] *)
Definition assemble_lhs (s : state) : state :=
  {| timestep := timestep s; time := time s; lhs_assemblies := S (lhs_assemblies s);
     prec_assemblies := prec_assemblies s; rhs_assemblies := rhs_assemblies s;
     linear_solves := linear_solves s |}.

(** [df.assemble(self._prec, tensor=self._prec_matrix)] *)
Definition assemble_prec (s : state) : state :=
  {| timestep := timestep s; time := time s; lhs_assemblies := lhs_assemblies s;
     prec_assemblies := S (prec_assemblies s); rhs_assemblies := rhs_assemblies s;
     linear_solves := linear_solves s |}.

(** [df.assemble(self._rhs, tensor=self._rhs_vector)] *)
Definition assemble_rhs (s : state) : state :=
  {| timestep := timestep s; time := time s; lhs_assemblies := lhs_assemblies s;
     prec_assemblies := prec_assemblies s; rhs_assemblies := S (rhs_assemblies s);
     linear_solves := linear_solves s |}.

(** [self.linear_solver.solve(self.v.vector(), self._rhs_vector)] *)
Definition linear_solve (s : state) : state :=
  {| timestep := timestep s; time := time s; lhs_assemblies := lhs_assemblies s;
     prec_assemblies := prec_assemblies s; rhs_assemblies := rhs_assemblies s;
     linear_solves := S (linear_solves s) |}.

(** [MonodomainSolver._update_lu_solver] *)
Definition _update_lu_solver (timestep_unchanged : bool) (dt : float) (s : state)
  : state :=
  if timestep_unchanged then s
  else assemble_lhs (set_timestep s dt).

(** [MonodomainSolver._update_krylov_solver] *)
Definition _update_krylov_solver (p : params) (timestep_unchanged : bool)
  (dt : float) (s : state) : state :=
  if timestep_unchanged then s
  else
    let s1 := assemble_lhs (set_timestep s dt) in
    if use_custom_preconditioner p then assemble_prec s1 else s1.

(** [self._update_solver], chosen in [_create_linear_solver]. *)
Definition _update_solver (p : params) : bool -> float -> state -> state :=
  match linear_solver_type_ p with
  | Direct => _update_lu_solver
  | Iterative => _update_krylov_solver p
  end.

(** [MonodomainSolver.step(t0, t1)] *)
Definition step (p : params) (t0 t1 : float) (s : state) : state :=
  let dt := t1 - t0 in
  let t := t0 + theta p * dt in
  let s1 := set_time s t in
  let timestep_unchanged := abs (dt - timestep s1) <? 1e-12 in
  let s2 := _update_solver p timestep_unchanged dt s1 in
  let s3 := assemble_rhs s2 in
  linear_solve s3.

End Monodomain.

(* ------------------------------------------------------------------------- *)
(** ** [xalbrain/cellmodels/cellmodel.py]: parameter and initial-condition
    maps of [CellModel] *)

Module CellModelParams.
Open Scope string_scope.

(** A parameter value: a Python float (binary64), or a [dolfin.Function]
    of a given [value_size()]. *)
Inductive pvalue : Type :=
| PNum (q : float)
| PFunction (value_size : nat).

(** An [OrderedDict] from names to values, as an association list in
    insertion order. *)
Definition odict := list (string * pvalue).

Fixpoint od_mem (k : string) (d : odict) : bool :=
  match d with
  | [] => false
  | (k', _) :: r => String.eqb k k' || od_mem k r
  end.

Fixpoint od_get (k : string) (d : odict) : option pvalue :=
  match d with
  | [] => None
  | (k', v) :: r => if String.eqb k k' then Some v else od_get k r
  end.

(** [d[k] = v]: an existing key keeps its position, a new key is appended. *)
Fixpoint od_set (k : string) (v : pvalue) (d : odict) : odict :=
  match d with
  | [] => [(k, v)]
  | (k', v') :: r => if String.eqb k k' then (k, v) :: r else (k', v') :: od_set k v r
  end.

(** The instance state of a [CellModel]: [str(self)], [self._parameters]
    and [self._initial_conditions]. *)
Record cell_model := {
  model_str : string;
  _parameters : odict;
  _initial_conditions : odict
}.

Definition with_parameters (m : cell_model) (p : odict) : cell_model :=
  {| model_str := model_str m; _parameters := p;
     _initial_conditions := _initial_conditions m |}.

Definition with_initial_conditions (m : cell_model) (ic : odict) : cell_model :=
  {| model_str := model_str m; _parameters := _parameters m;
     _initial_conditions := ic |}.

(** The module-level [error] of [cellmodel.py]: [print(arg)], nothing is
    raised. A run collects the printed lines. *)
Definition error (out : list string) (arg : string) : list string := out ++ [arg].

(** The value-size check of both setters. *)
Definition check_value_size (out : list string) (name : string) (v : pvalue)
  : list string :=
  match v with
  | PFunction sz => if Nat.eqb sz 1 then out
                    else error out ("expected the value_size of '" ++ name ++ "' to be 1")
  | PNum _ => out
  end.

(** [CellModel.set_parameters(params as keyword arguments)] *)
Definition set_parameters (m : cell_model) (params : list (string * pvalue))
  : list string * cell_model :=
  fold_left
    (fun (acc : list string * cell_model) (kv : string * pvalue) =>
       let (out, m) := acc in
       let (param_name, param_value) := kv in
       let out1 := if od_mem param_name (_parameters m) then out
                   else error out ("'" ++ param_name ++ "' is not a parameter in "
                                   ++ model_str m) in
       let out2 := check_value_size out1 param_name param_value in
       (out2, with_parameters m (od_set param_name param_value (_parameters m))))
    params ([], m).

(** [CellModel.set_initial_conditions(init as keyword arguments)] *)
Definition set_initial_conditions (m : cell_model) (init : list (string * pvalue))
  : list string * cell_model :=
  fold_left
    (fun (acc : list string * cell_model) (kv : string * pvalue) =>
       let (out, m) := acc in
       let (init_name, init_value) := kv in
       let out1 := if od_mem init_name (_initial_conditions m) then out
                   else error out ("'" ++ init_name ++ "' is not a parameter in "
                                   ++ model_str m) in
       let out2 := check_value_size out1 init_name init_value in
       (out2, with_initial_conditions m
                (od_set init_name init_value (_initial_conditions m))))
    init ([], m).

(** [AdexManual.default_parameters()]; the literal [0.061] is rounded to
    the nearest binary64 as Python rounds it. [tau_w] is the Python int
    [144], kept here as the float of the same value (no function below
    reads it). *)
Definition adex_default_parameters : odict :=
  [("C", PNum 59.0); ("g_L", PNum 2.9); ("E_L", PNum (-62.0));
   ("V_T", PNum (-42.0)); ("Delta_T", PNum 3.0); ("a", PNum 16.0);
   ("tau_w", PNum 144.0); ("b", PNum 0.061); ("spike", PNum 20.0)].

(** [AdexManual.default_initial_conditions()], read from the parameters. *)
Definition adex_default_initial_conditions (p : odict) : odict :=
  [("V", match od_get "E_L" p with Some v => v | None => PNum 0.0 end);
   ("w", PNum 0.0)].

(** [AdexManual()]: [CellModel.__init__] with no overrides. *)
Definition AdexManual : cell_model :=
  {| model_str := "(Manual) AdEx neuronal cell model -- Slow version";
     _parameters := adex_default_parameters;
     _initial_conditions := adex_default_initial_conditions adex_default_parameters |}.

End CellModelParams.

(* ------------------------------------------------------------------------- *)
(** ** [xalbrain/cellmodels/adex_slow.py]: the spike-and-reset hook
    [AdexManual.update], on the PETSc array of the state vector *)

Module AdexUpdate.
Import CellModelParams.
Open Scope float_scope.

(** [self._parameters[name]], used as a number. *)
Definition param_num (p : odict) (name : string) : result float :=
  match od_get name p with
  | Some (PNum q) => Ok q
  | Some (PFunction _) => Err TypeError
  | None => Err KeyError
  end.

(** Fancy indexing [a[idx]] of a numpy array by an integer array. *)
Fixpoint gather {A : Type} (a : list A) (idx : list nat) : result (list A) :=
  match idx with
  | [] => Ok []
  | i :: r =>
      match nth_error a i with
      | Some x => ys <- gather a r ;; Ok (x :: ys)
      | None => Err IndexError
      end
  end.

(** [a[i] = x] on a numpy array. *)
Fixpoint set_at (a : list float) (i : nat) (x : float) : list float :=
  match a, i with
  | [], _ => []
  | _ :: r, O => x :: r
  | y :: r, S i' => y :: set_at r i' x
  end.

(** Fancy assignment [a[idx] = vals], element by element in index order. *)
Fixpoint scatter (a : list float) (idx : list nat) (vals : list float)
  : result (list float) :=
  match idx, vals with
  | i :: r, x :: xs =>
      if Nat.ltb i (List.length a) then scatter (set_at a i x) r xs else Err IndexError
  | _, _ => Ok a
  end.

(** [np.where(mask)[0]]: the positions where the mask holds. *)
Fixpoint where_from (i : nat) (mask : list bool) : list nat :=
  match mask with
  | [] => []
  | true :: r => i :: where_from (S i) r
  | false :: r => where_from (S i) r
  end.

Definition where_ (mask : list bool) : list nat := where_from 0 mask.

(** numpy's [x > y] on float64: IEEE [y < x], false when either is NaN. *)
Definition gtb (x y : float) : bool := PrimFloat.ltb y x.
Arguments gtb x y : simpl never.

(** [AdexManual.update(vs)]: [vec] is the PETSc array of [vs.vector()],
    [Vdofs] and [Wdofs] the dofs of the sub-spaces 0 and 1. *)
Definition update (p : odict) (Vdofs Wdofs : list nat) (vec : list float)
  : result (list float) :=
  (* toflip = np.where(vs_vec.array_r[Vdofs] > self._parameters["spike"])[0] *)
  vV <- gather vec Vdofs ;;
  spike <- param_num p "spike" ;;
  let toflip := where_ (map (fun x => gtb x spike) vV) in
  (* vs_vec.array_w[Vdofs[toflip]] = self._parameters["E_L"] *)
  E_L <- param_num p "E_L" ;;
  vidx <- gather Vdofs toflip ;;
  vec1 <- scatter vec vidx (repeat E_L (List.length vidx)) ;;
  (* vs_vec.array_w[Wdofs[toflip]] += self._parameters["b"] *)
  widx <- gather Wdofs toflip ;;
  wv <- gather vec1 widx ;;
  b <- param_num p "b" ;;
  scatter vec1 widx (map (fun x => (x + b)%float) wv).

End AdexUpdate.

(* ------------------------------------------------------------------------- *)
(** ** Cell models as ODE right-hand sides, and [MultiCellModel]
    ([xalbrain/cellmodels/cellmodel.py]) *)

Module MultiCell.
Open Scope Q_scope.

(** Integrands of the variational forms, as the UFL expressions the solvers
    build from the components of the current field [vs] (trial/unknown) and
    of the previous field [vs_]: affine combinations of them. *)
Inductive expr : Type :=
| ECst (q : Q)
| ECur (c : nat)
| EPrev (c : nat)
| EAdd (e1 e2 : expr)
| ESub (e1 e2 : expr)
| EScale (q : Q) (e : expr)
| ENeg (e : expr).

(** A cell model as the solvers use it: [num_states()], [F(v, s, time)]
    and [I(v, s, time)]. *)
Record cell_ops := {
  num_states : nat;
  F : expr -> list expr -> Q -> list expr;
  I : expr -> list expr -> Q -> expr
}.

(** A Python dictionary key: the dispatcher's keys are integers. *)
Inductive pykey : Type :=
| KInt (z : Z)
| KNone.

Definition pykey_eqb (a b : pykey) : bool :=
  match a, b with
  | KInt x, KInt y => Z.eqb x y
  | KNone, KNone => true
  | _, _ => false
  end.

(** [dict(zip(keys, range(len(keys))))]: a later duplicate key overwrites
    the value of an earlier one. *)
Fixpoint dict_set (k : pykey) (v : nat) (d : list (pykey * nat)) : list (pykey * nat) :=
  match d with
  | [] => [(k, v)]
  | (k', v') :: r => if pykey_eqb k k' then (k, v) :: r else (k', v') :: dict_set k v r
  end.

Definition dict_zip (keys : list Z) : list (pykey * nat) :=
  fold_left (fun d kv => dict_set (KInt (fst kv)) (snd kv) d)
    (combine keys (seq 0 (List.length keys))) [].

(** [d[k]] *)
Fixpoint dict_get (d : list (pykey * nat)) (k : pykey) : result nat :=
  match d with
  | [] => Err KeyError
  | (k', v) :: r => if pykey_eqb k k' then Ok v else dict_get r k
  end.

(** [lst[i]] *)
Definition list_get {A : Type} (l : list A) (i : nat) : result A :=
  match nth_error l i with Some x => Ok x | None => Err IndexError end.

(** [max(iterable)] of natural numbers. *)
Definition py_max (l : list nat) : result nat :=
  match l with
  | [] => Err (ValueError "max() arg is an empty sequence")
  | x :: r => Ok (fold_left Nat.max r x)
  end.

(** [dolfin.UnitIntervalMesh(num_cells)] *)
Record interval_mesh := { num_cells : nat }.

(** A cell [MeshFunction]: the mesh and one integer tag per cell
    ([markers.array()]). *)
Record mesh_function := {
  mf_mesh : interval_mesh;
  mf_array : list Z
}.

(** The instance state of a [MultiCellModel]. *)
Record multi_cell_model := {
  _cell_models : list cell_ops;
  _keys : list Z;
  _key_to_cell_model : list (pykey * nat);
  _markers : mesh_function;
  _num_states : nat
}.

(** [MultiCellModel.__init__(models, keys, markers)] *)
Definition MultiCellModel_init (models : list cell_ops) (keys : list Z)
  (markers : mesh_function) : result multi_cell_model :=
  n <- py_max (map num_states models) ;;
  Ok {| _cell_models := models; _keys := keys; _key_to_cell_model := dict_zip keys;
        _markers := markers; _num_states := n |}.

(** [index] as the keyword argument Python passes: [None] or an integer. *)
Definition key_of_index (index : option Z) : pykey :=
  match index with Some z => KInt z | None => KNone end.

(** [MultiCellModel.F(v, s, time, index)]: the printed lines and the
    outcome. *)
Definition MultiCellModel_F (m : multi_cell_model) (v : expr) (s : list expr)
  (time : Q) (index : option Z) : list string * result (list expr) :=
  let out := match index with
             | None => CellModelParams.error []
                         "(Domain) index must be specified for multi cell models"
             | Some _ => []
             end in
  (out,
   k <- dict_get (_key_to_cell_model m) (key_of_index index) ;;
   mk <- list_get (_cell_models m) k ;;
   Ok (F mk v s time)).

(** [MultiCellModel.I(v, s, time, index)] *)
Definition MultiCellModel_I (m : multi_cell_model) (v : expr) (s : list expr)
  (time : Q) (index : option Z) : list string * result expr :=
  let out := match index with
             | None => CellModelParams.error []
                         "(Domain) index must be specified for multi cell models"
             | Some _ => []
             end in
  (out,
   k <- dict_get (_key_to_cell_model m) (key_of_index index) ;;
   mk <- list_get (_cell_models m) k ;;
   Ok (I mk v s time)).

End MultiCell.

(* ------------------------------------------------------------------------- *)
(** ** [BasicCardiacODESolver.step] for a [MultiCellModel]
    ([xalbrain/cellsolver.py], lines 221-325): the residual it builds *)

Module ThetaStep.
Import MultiCell.
Open Scope Q_scope.

(** The solver attributes [step] reads on this branch: the parameter
    [theta], the stimulus [self._I_s] ([None] or a constant),
    [self._cell_model] (whose [F] and [I] are [self._F] and [self._I_ion])
    and [self._model], which, of [BasicCardiacODESolver] and its
    subclasses, only [BasicSingleCellSolver.__init__] sets. *)
Record solver := {
  theta : Q;
  _I_s : option Q;
  _cell_model : multi_cell_model;
  _model : option multi_cell_model
}.

(** One integral of the residual: the component of the test function
    ([w] is component 0, [r[j]] is component [j+1]), the integrand it
    multiplies, and the measure: [dy()] ([None]) or [dy(i)] ([Some i]). *)
Record integral := {
  test_comp : nat;
  integrand : expr;
  subdomain : option Z
}.

Definition form := list integral.

Definition mk_integral (c : nat) (e : expr) (d : option Z) : integral :=
  {| test_comp := c; integrand := e; subdomain := d |}.

(** [sum(s[j]*r[j] for j in range(n_k, n))*dy(i_k)] *)
Fixpoint trivial_states (s : list expr) (n_k n : nat) (i_k : Z) : result form :=
  match n with
  | O => Ok []
  | S n' =>
      if Nat.leb n n_k then Ok []
      else
        rest <- trivial_states s n_k n' i_k ;;
        sj <- list_get s n' ;;
        Ok (rest ++ [mk_integral (S n') sj (Some i_k)])
  end.

(** [tuple(x[j] for j in range(n_k))] *)
Definition take_k (x : list expr) (n_k : nat) : result (list expr) :=
  if Nat.leb n_k (List.length x) then Ok (firstn n_k x) else Err IndexError.

(** The contribution [a_k] of cell model [k] (lines 270-298). *)
Definition region_form (st : solver) (model : multi_cell_model) (s : list expr)
  (Dt_v : expr) (Dt_s : list expr) (v_mid : expr) (s_mid : list expr) (t : Q)
  (k : nat) (model_k : cell_ops) : result form :=
  let n := _num_states model in
  let n_k := num_states model_k in
  s_mid_k <- take_k s_mid n_k ;;
  Dt_s_k <- take_k Dt_s n_k ;;
  i_k <- list_get (_keys model) k ;;
  F_theta_k <- snd (MultiCellModel_F (_cell_model st) v_mid s_mid_k t (Some i_k)) ;;
  I_ion_k <- snd (MultiCellModel_I (_cell_model st) v_mid s_mid_k t (Some i_k)) ;;
  let I_theta_k := ENeg I_ion_k in
  if negb (Nat.eqb (List.length F_theta_k) n_k) then Err (ValueError "shape mismatch")
  else
    let a_v := [mk_integral 0 (ESub Dt_v I_theta_k) (Some i_k)] in
    let a_dt := map (fun je => mk_integral (S (fst je)) (snd je) (Some i_k))
                    (combine (seq 0 n_k) Dt_s_k) in
    let a_f := map (fun je => mk_integral (S (fst je)) (ENeg (snd je)) (Some i_k))
                   (combine (seq 0 n_k) F_theta_k) in
    triv <- trivial_states s n_k n i_k ;;
    Ok (a_v ++ a_dt ++ a_f ++ triv).

(** [for k, model_k in enumerate(model.models())] collecting [lhs_list]. *)
Fixpoint regions_form (st : solver) (model : multi_cell_model) (s : list expr)
  (Dt_v : expr) (Dt_s : list expr) (v_mid : expr) (s_mid : list expr) (t : Q)
  (k : nat) (models : list cell_ops) : result form :=
  match models with
  | [] => Ok []
  | model_k :: rest =>
      a_k <- region_form st model s Dt_v Dt_s v_mid s_mid t k model_k ;;
      others <- regions_form st model s Dt_v Dt_s v_mid s_mid t (S k) rest ;;
      Ok (a_k ++ others)
  end.

(** The residual [G = lhs - rhs] that [step(t0, t1)] hands to the
    nonlinear solver, on the [MultiCellModel] branch. *)
Definition step_form (st : solver) (t0 t1 : Q) : result form :=
  let ns := _num_states (_cell_model st) in
  let k_n := t1 - t0 in
  let v_ := EPrev 0 in
  let s_ := map (fun j => EPrev (S j)) (seq 0 ns) in
  let v := ECur 0 in
  let s := map (fun j => ECur (S j)) (seq 0 ns) in
  let Dt_v := EScale (/ k_n) (ESub v v_) in
  let Dt_s := map (fun j => EScale (/ k_n) (ESub (ECur (S j)) (EPrev (S j))))
                  (seq 0 ns) in
  let th := theta st in
  let t := t0 + th * (t1 - t0) in
  let v_mid := EAdd (EScale th v) (EScale (1 - th) v_) in
  let s_mid := map (fun j => EAdd (EScale th (ECur (S j))) (EScale (1 - th) (EPrev (S j))))
                   (seq 0 ns) in
  match _model st with
  | None => Err (AttributeError "_model")
  | Some model =>
      let I_s := match _I_s st with Some q => q | None => 0 end in
      let rhs := [mk_integral 0 (ECst I_s) None] in
      lhs <- regions_form st model s Dt_v Dt_s v_mid s_mid t 0 (_cell_models model) ;;
      Ok (lhs ++ map (fun ig => mk_integral (test_comp ig) (ENeg (integrand ig))
                                  (subdomain ig)) rhs)
  end.

(** [BasicCardiacODESolver.__init__(mesh, time, model, I_s, parameters)]
    (lines 190-207): it stores [self._parameters] (with [theta]) and
    [self._I_s], and [AbstractCellSolver.__init__] stores
    [self._cell_model]; nothing sets [self._model]. *)
Definition BasicCardiacODESolver_init (theta_ : Q) (I_s : option Q)
  (model : multi_cell_model) : solver :=
  {| theta := theta_; _I_s := I_s; _cell_model := model; _model := None |}.

End ThetaStep.

(* ------------------------------------------------------------------------- *)
(** ** The time stepper and [AbstractCellSolver.solve]
    ([xalbrain/cellsolver.py], lines 105-140) *)

Module CellSolve.
Open Scope Q_scope.

(** Modelled from the spec: [xalbrain.utils.time_stepper], imported by
    [cellsolver.py] but not part of the sources at hand. Section 4.2: from
    [cursor = t0], repeatedly emit [(cursor, cursor + dt)] and advance
    [cursor]; terminate when [cursor + dt] exceeds [t1 + eps], with [eps]
    the floating-point resolution [DOLFIN_EPS]. [fuel] bounds the loop. *)
Definition time_eps : Q := 3 # 10000000000000000.

Fixpoint time_stepper_fuel (fuel : nat) (cursor t1 dt : Q) : list (Q * Q) :=
  match fuel with
  | O => []
  | S f =>
      if Qle_bool (cursor + dt) (t1 + time_eps)
      then (cursor, cursor + dt) :: time_stepper_fuel f (cursor + dt) t1 dt
      else []
  end.

Definition time_stepper (t0 t1 dt : Q) : list (Q * Q) :=
  time_stepper_fuel (S (Z.to_nat (Qceiling ((t1 - t0 + time_eps) / dt)))) t0 t1 dt.

(** How a generator run ends once the consumer has exhausted it: it
    returns ([StopIteration]) or raises. *)
Inductive gen_end : Type :=
| Returned
| Raised (e : py_error).

(** The full run of a generator: the yielded elements, in order, then how
    it ends, and the final state of the objects it mutated. *)
Record gen_run (Y St : Type) := {
  yields : list Y;
  ending : gen_end;
  final : St
}.
Arguments yields {Y St} g.
Arguments ending {Y St} g.
Arguments final {Y St} g.

Section Solve.
(** The solver object: its state, [step] (abstract in
    [AbstractCellSolver]), the current field [self.vs] and
    [self.vs_.assign(self.vs)]. *)
Variable St Field : Type.
Variable step : Q -> Q -> St -> St.
Variable vs : St -> Field.
Variable assign_prev : St -> St.

(** The body of [for _t0, _t1 in time_stepper(t0, t1, dt)]. *)
Fixpoint solve_loop (ivs : list (Q * Q)) (s : St) : list ((Q * Q) * Field) * St :=
  match ivs with
  | [] => ([], s)
  | (a, b) :: rest =>
      let s1 := step a b s in
      let y := ((a, b), vs s1) in
      let s2 := assign_prev s1 in
      let (ys, s3) := solve_loop rest s2 in
      (y :: ys, s3)
  end.

(** [AbstractCellSolver.solve(t0, t1, dt)], run to exhaustion: after the
    loop, [assert False]. *)
Definition solve (t0 t1 : Q) (dt : option Q) (s : St)
  : gen_run ((Q * Q) * Field) St :=
  let dt' := match dt with Some d => d | None => t1 - t0 end in
  let (ys, s') := solve_loop (time_stepper t0 t1 dt') s in
  {| yields := ys; ending := Raised AssertionError; final := s' |}.

End Solve.
End CellSolve.

(* ------------------------------------------------------------------------- *)
(** ** The three [step] variants of the cell solvers and their effect on
    the previous and current fields ([xalbrain/cellsolver.py]) *)

Module StepVariants.
Open Scope Q_scope.

(** The solver's fields: the coefficient vectors of [self.vs_] and
    [self.vs], and the value of the shared time constant. *)
Record fields := {
  vs_ : list Q;
  vs : list Q;
  time : Q
}.

Section Variants.

(** The external solvers. [theta_solve prev guess t0 t1] is the root of
    the theta-scheme residual found by [NonlinearVariationalSolver.solve()]
    from the initial guess, with the previous field as a coefficient;
    [pi_step time dt x] is [PointIntegralSolver.step(dt)] on the field it
    was built on, returning the new field and time. *)
Variable theta_solve : list Q -> list Q -> Q -> Q -> list Q.
Variable pi_step : Q -> Q -> list Q -> list Q * Q.

(** Modelled from the spec: [LatticeODESolver.solve(state, t0, t1, dt,
    indicator)] of the native extension module, not part of the sources at
    hand. Section 4.3, variant C: the native routine does the whole per-node
    time march of the state vector it is handed; [MultiCellSolver.step]
    passes it [self.vs_.vector()] itself and reads the result back from
    [self.vs_], so the march is done in place on that vector. *)
Variable lattice_solve : list Q -> Q -> Q -> Q -> list Q -> list Q.

(** [BasicCardiacODESolver.step(t0, t1)]: [self.vs.assign(self.vs_)],
    [self.time.assign(t)], then the nonlinear solve into [self.vs]. *)
Definition basic_step (theta t0 t1 : Q) (f : fields) : fields :=
  let guess := vs_ f in
  let t := t0 + theta * (t1 - t0) in
  {| vs_ := vs_ f; vs := theta_solve (vs_ f) guess t0 t1; time := t |}.

(** [CardiacODESolver.step(t0, t1)]: [self.vs.assign(self.vs_)], then
    [self._pi_solver.step(dt)] on [self.vs]. *)
Definition cardiac_step (t0 t1 : Q) (f : fields) : fields :=
  let dt := t1 - t0 in
  let (x, t) := pi_step (time f) dt (vs_ f) in
  {| vs_ := vs_ f; vs := x; time := t |}.

(** [MultiCellSolver.step(t0, t1)]: set the time, run the native solver on
    [self.vs_.vector()], then [self.vs.vector()[:] = self.vs_.vector()[:]]. *)
Definition multi_step (theta : Q) (indicator : list Q) (t0 t1 : Q) (f : fields)
  : fields :=
  let dt := t1 - t0 in
  let t := t0 + theta * (t1 - t0) in
  let new_prev := lattice_solve (vs_ f) t0 t1 dt indicator in
  {| vs_ := new_prev; vs := new_prev; time := t |}.

End Variants.

(** One forward Euler step of [ds/dt = -s] at every node: an instance of a
    native per-node integrator, used to evaluate [multi_step]. *)
Definition euler_decay (x : list Q) (t0 t1 dt : Q) (indicator : list Q) : list Q :=
  map (fun xi => xi - dt * xi) x.

End StepVariants.

(* ------------------------------------------------------------------------- *)
(** ** The cell-tag check of [MultiCellSolver.__init__]
    ([xalbrain/cellsolver.py], lines 472-482) *)

Module TagCheck.

Definition zmem (z : Z) (l : list Z) : bool := existsb (Z.eqb z) l.

(** [set(arr)] *)
Fixpoint set_of (l : list Z) : list Z :=
  match l with
  | [] => []
  | x :: r => let s := set_of r in if zmem x s then s else x :: s
  end.

(** [a | b] on sets. *)
Definition set_union (a b : list Z) : list Z :=
  a ++ filter (fun z => negb (zmem z a)) (set_of b).

(** [reduce(or_, sets)], which raises on an empty sequence. *)
Definition reduce_or (sets : list (list Z)) : result (list Z) :=
  match sets with
  | [] => Err TypeError
  | x :: r => Ok (fold_left set_union r x)
  end.

(** [a <= b] on sets. *)
Definition set_le (a b : list Z) : bool := forallb (fun z => zmem z b) a.

(** The check on the process of rank [rank]: [local_arrays] holds every
    process's [cell_function.array()], gathered on rank 0. *)
Definition MultiCellSolver_check_tags (rank : nat) (local_arrays : list (list Z))
  (valid_cell_tags : list Z) : result unit :=
  let all_cell_function_tags := map set_of local_arrays in
  if Nat.eqb rank 0 then
    all_tags <- reduce_or all_cell_function_tags ;;
    if negb (set_le (set_of valid_cell_tags) all_tags)
    then Err (ValueError "Valid cell tag not found in cell function.")
    else Ok tt
  else Ok tt.

End TagCheck.

(* ------------------------------------------------------------------------- *)
(** ** [MultiCellModel.initial_conditions] ([xalbrain/cellmodels/cellmodel.py],
    lines 257-284), with Python's local-variable scoping *)

Module InitialConditions.
Open Scope string_scope.

(** The Python values the method handles; dolfin and UFL objects are
    opaque [VObj]s. *)
Inductive pyval : Type :=
| VInt (z : Z)
| VStr (s : string)
| VObj (tag : string) (args : list pyval)
| VList (l : list pyval).

(** The frame of local variables: a name is local to the function when the
    body assigns it, and reading a local before its first assignment raises
    [UnboundLocalError]. *)
Definition env := list (string * pyval).

Fixpoint env_get (x : string) (e : env) : option pyval :=
  match e with
  | [] => None
  | (y, v) :: r => if String.eqb x y then Some v else env_get x r
  end.

(** Statements run in a state-and-error monad over the frame. *)
Definition M (A : Type) := env -> result (A * env).

Definition ret {A : Type} (a : A) : M A := fun e => Ok (a, e).

Definition raise {A : Type} (x : py_error) : M A := fun _ => Err x.

Definition mbind {A B : Type} (c : M A) (k : A -> M B) : M B :=
  fun e => match c e with
           | Ok (a, e') => k a e'
           | Err x => Err x
           end.

Notation "x <-- c ;;; k" := (mbind c (fun x => k))
  (at level 61, c at next level, right associativity).
Notation "c ;;; k" := (mbind c (fun _ => k))
  (at level 61, right associativity).

Definition assign (x : string) (v : pyval) : M unit := fun e => Ok (tt, (x, v) :: e).

Definition read (x : string) : M pyval :=
  fun e => match env_get x e with
           | Some v => Ok (v, e)
           | None => Err (UnboundLocalError x)
           end.

Section Method.

(** The dolfin/UFL operations, by name, with any outcome. *)
Variable dolfin : string -> list pyval -> result pyval.

Definition call (f : string) (args : list pyval) : M pyval :=
  fun e => match dolfin f args with
           | Ok v => Ok (v, e)
           | Err x => Err x
           end.

(** [sum(ic[j]*v[j]*dy(i_k) for j in range(n_k + 1))], from [acc = 0]. *)
Fixpoint sum_terms (js : list Z) (acc : pyval) : M pyval :=
  match js with
  | [] => ret acc
  | j :: rest =>
      ic <-- read "ic" ;;; icj <-- call "__getitem__" [ic; VInt j] ;;;
      v <-- read "v" ;;; vj <-- call "__getitem__" [v; VInt j] ;;;
      p <-- call "__mul__" [icj; vj] ;;;
      dy <-- read "dy" ;;; i_k <-- read "i_k" ;;; dyi <-- call "__call__" [dy; i_k] ;;;
      term <-- call "__mul__" [p; dyi] ;;;
      acc' <-- call "__add__" [acc; term] ;;;
      sum_terms rest acc'
  end.

(** [for k, model in enumerate(self.models()): ...] *)
Fixpoint models_loop (k : nat) (models : list pyval) (keys : list Z) : M unit :=
  match models with
  | [] => ret tt
  | model :: rest =>
      assign "k" (VInt (Z.of_nat k)) ;;; assign "model" model ;;;
      i_k <-- (match nth_error keys k with
               | Some z => ret (VInt z)
               | None => raise IndexError
               end) ;;;
      assign "i_k" i_k ;;;
      ic <-- call "initial_conditions" [model] ;;; assign "ic" ic ;;;
      n_k <-- call "num_states" [model] ;;; assign "n_k" n_k ;;;
      L_k <-- (match n_k with
               | VInt z => sum_terms (map Z.of_nat (seq 0 (S (Z.to_nat z)))) (VInt 0)
               | _ => raise TypeError
               end) ;;;
      assign "L_k" L_k ;;;
      Ls <-- read "Ls" ;;;
      (match Ls with
       | VList l => assign "Ls" (VList (l ++ [L_k]))
       | _ => raise TypeError
       end) ;;;
      models_loop (S k) rest keys
  end.

(** The method body, for a [MultiCellModel] with the given models, keys,
    markers and [num_states()]. *)
Definition initial_conditions (models : list pyval) (keys : list Z) (markers : pyval)
  (num_states : Z) : M pyval :=
  assign "n" (VInt num_states) ;;;
  n <-- read "n" ;;;
  mesh <-- call "mesh" [markers] ;;;
  n1 <-- call "__add__" [n; VInt 1] ;;;
  VS <-- call "VectorFunctionSpace" [mesh; VStr "DG"; VInt 0; n1] ;;; assign "VS" VS ;;;
  vs <-- call "Function" [VS] ;;; assign "vs" vs ;;;
  vs_tmp <-- call "Function" [VS] ;;; assign "vs_tmp" vs_tmp ;;;
  assign "markers" markers ;;;
  u <-- call "TrialFunction" [VS] ;;; assign "u" u ;;;
  v <-- call "TestFunction" [VS] ;;; assign "v" v ;;;
  mesh' <-- call "mesh" [markers] ;;;
  dy <-- call "Measure" [VStr "dx"; mesh'; markers] ;;; assign "dy" dy ;;;
  (* a = inner(u, v)*dy(i_k) *)
  uv <-- call "inner" [u; v] ;;;
  dy' <-- read "dy" ;;; i_k <-- read "i_k" ;;; dyi <-- call "__call__" [dy'; i_k] ;;;
  a <-- call "__mul__" [uv; dyi] ;;; assign "a" a ;;;
  assign "Ls" (VList []) ;;;
  models_loop 0 models keys ;;;
  Ls <-- read "Ls" ;;;
  L <-- (match Ls with
         | VList l => fold_right (fun t acc => acc' <-- acc ;;; call "__add__" [acc'; t])
                                 (ret (VInt 0)) (rev l)
         | _ => raise TypeError
         end) ;;;
  assign "L" L ;;;
  eq <-- call "__eq__" [a; L] ;;;
  call "solve" [eq; vs] ;;;
  read "vs".

End Method.
End InitialConditions.

(* ------------------------------------------------------------------------- *)
(** ** [CellModel.__init__] ([xalbrain/cellmodels/cellmodel.py], lines 69-101)
    and the constructor of [AdexManual] ([xalbrain/cellmodels/adex_slow.py]) *)

Module CellModelInit.
Import CellModelParams.
Open Scope string_scope.

(** [CellModel.__init__(params, init_conditions)]: [self._parameters] is set
    to [default_parameters()], then [self.default_initial_conditions()] is
    called on the instance (it may read [self._parameters]), then the
    overrides are applied when they are non-empty. The keyword arguments are
    given as the items of the dictionaries; [self.stimulus = None] is not
    part of the modelled state. Returns the printed lines and the instance. *)
Definition CellModel_init (name : string) (default_parameters : odict)
  (default_initial_conditions : odict -> odict)
  (params init_conditions : list (string * pvalue)) : list string * cell_model :=
  let m0 := {| model_str := name; _parameters := default_parameters;
               _initial_conditions := default_initial_conditions default_parameters |} in
  let (out1, m1) := match params with
                    | [] => ([], m0)
                    | _ => set_parameters m0 params
                    end in
  let (out2, m2) := match init_conditions with
                    | [] => ([], m1)
                    | _ => set_initial_conditions m1 init_conditions
                    end in
  ((out1 ++ out2)%list, m2).

(** [AdexManual(params, init_conditions)]: [CellModel.__init__] with the
    AdEx defaults; its [default_initial_conditions] reads
    [self._parameters["E_L"]]. *)
Definition AdexManual_init (params init_conditions : list (string * pvalue))
  : list string * cell_model :=
  CellModel_init "(Manual) AdEx neuronal cell model -- Slow version"
    adex_default_parameters adex_default_initial_conditions params init_conditions.

End CellModelInit.

(* ------------------------------------------------------------------------- *)
(** ** The variational forms of the monodomain solvers
    ([xalbrain/monodomainsolver.py]): the cell tags they integrate over, and
    the conductivity dictionary built by [BasicMonodomainSolver.__init__] *)

Module MonodomainForms.
Import TagCheck.
Open Scope string_scope.

(** The integrands the loop over cell tags builds, with the conductivity
    [M_i[key]] and the stimulus [self._I_s] as named objects. *)
Inductive term : Type :=
| TDt                          (* Dt_v_k_n*w *)
| TDiff (M : string)           (* lam_frac*inner(M_i[key]*grad(v_mid), grad(w)) *)
| TSrc (I_s : option string)   (* chi*I_s*w, or chi*Constant(0)*w when I_s is None *)
| TPrec (M : string).          (* (v*w + k_n/2.0*inner(M_i[key]*grad(v), grad(w))) *)

(** [sign * term * dz(key)] *)
Record integral := {
  isign : Z;
  iterm : term;
  idz : Z
}.

(** A UFL form: a sum of integrals. *)
Definition form := list integral.

(** [M_i[key]] on the dictionary of conductivities. *)
Fixpoint zdict_get {A : Type} (d : list (Z * A)) (k : Z) : result A :=
  match d with
  | [] => Err KeyError
  | (k', v) :: r => if Z.eqb k k' then Ok v else zdict_get r k
  end.










End MonodomainForms.

(* ------------------------------------------------------------------------- *)
(** ** [BasicMonodomainSolver.solve] ([xalbrain/monodomainsolver.py],
    lines 175-225), inherited by [MonodomainSolver], and the constructor of
    [MonodomainSolver] (lines 322-391) *)

Module MonodomainSolve.
Import Monodomain.
Open Scope float_scope.

Section Solve.
Context {St : Type}.
(** [self.step(_t0, _t1)] *)
Variable step_ : float -> float -> St -> St.
(** [self.v_.assign(self.v)] *)
Variable assign_prev : St -> St.
(** [isinstance(self.v_, df.Function)] *)
Variable v__is_function : bool.
(** [end_of_time(T, t0, t1, dt)] imported from [xalbrain.utils]. *)
Variable end_of_time : float -> float -> float -> float -> bool.

(** The [while True] loop, for at most [fuel] passes: the intervals yielded,
    whether the loop broke, and the final state. *)
Fixpoint solve_loop (fuel : nat) (t1 dt _t0 _t1 : float) (s : St)
  : list (float * float) * bool * St :=
  match fuel with
  | O => ([], false, s)
  | S f =>
      let s1 := step_ _t0 _t1 s in
      if end_of_time t1 _t0 _t1 dt then ([(_t0, _t1)], true, s1)
      else
        let s2 := if v__is_function then assign_prev s1 else s1 in
        let '(ys, fin, sf) := solve_loop f t1 dt _t1 (_t1 + dt) s2 in
        ((_t0, _t1) :: ys, fin, sf)
  end.

(** [BasicMonodomainSolver.solve(t0, t1, dt)] *)
Definition solve (fuel : nat) (t0 t1 : float) (dt : option float) (s : St)
  : list (float * float) * bool * St :=
  let dt := match dt with Some d => d | None => t1 - t0 end in
  solve_loop fuel t1 dt t0 (t0 + dt) s.

End Solve.

(** [MonodomainSolver.__init__] after [BasicMonodomainSolver.__init__]:
    [self._timestep = Constant(default_timestep)], the left-hand side
    assembled once, then [_create_linear_solver]. For an iterative solver
    with a custom preconditioner, it assembles the preconditioner and then
    reads [self.parameters["krylov_solver"]], a key that
    [MonodomainSolver.default_parameters()] does not add: [KeyError]. It
    fails its assertion on an unknown solver type. Returns the parameters
    [step] reads and the initial state. *)
Definition MonodomainSolver_init (theta_ default_timestep : float)
  (solver_type : string) (use_custom : bool) (time0 : float)
  : result (params * state) :=
  let s0 := {| timestep := default_timestep; time := time0; lhs_assemblies := 1;
               prec_assemblies := 0; rhs_assemblies := 0; linear_solves := 0 |} in
  if String.eqb solver_type "direct" then
    Ok ({| theta := theta_; linear_solver_type_ := Direct;
           use_custom_preconditioner := use_custom |}, s0)
  else if String.eqb solver_type "iterative" then
    if use_custom then
      (* self._prec_matrix = df.assemble(self._prec), then
         solver.parameters.update(self.parameters["krylov_solver"]) *)
      Err KeyError
    else
      Ok ({| theta := theta_; linear_solver_type_ := Iterative;
             use_custom_preconditioner := use_custom |}, s0)
  else Err AssertionError.

(** [MonodomainSolver.solve]: the inherited generator driving
    [MonodomainSolver.step]; [v_.assign(v)] leaves the counted state as it
    is. *)
Definition MonodomainSolver_solve (p : params) (v__is_function : bool)
  (end_of_time : float -> float -> float -> float -> bool)
  (fuel : nat) (t0 t1 : float) (dt : option float) (s : state)
  : list (float * float) * bool * state :=
  solve (step p) (fun s => s) v__is_function end_of_time fuel t0 t1 dt s.

End MonodomainSolve.

(* ------------------------------------------------------------------------- *)
(** ** How CPython binds the arguments of a call, and the [super().__init__]
    calls of the cell solvers ([xalbrain/cellsolver.py]) *)

Module PyCall.
Open Scope string_scope.

Inductive param_kind := PositionalOrKeyword | KeywordOnly.

(** A formal parameter after [self]: its name, kind and whether it has a
    default value. *)
Record param := {
  pname : string;
  pkind : param_kind;
  has_default : bool
}.

Definition is_positional (p : param) : bool :=
  match pkind p with PositionalOrKeyword => true | KeywordOnly => false end.

Definition name_in (k : string) (l : list string) : bool :=
  existsb (String.eqb k) l.

(** Binding [npos] positional arguments and the keyword arguments [kws] to
    [params], in CPython's order: the positional arguments fill the first
    positional parameters, then each keyword must name a parameter not yet
    bound, then too many positional arguments, then a required parameter
    left unbound, raise [TypeError]. Returns the names bound. *)
Definition bind_args (params : list param) (npos : nat) (kws : list string)
  : result (list string) :=
  let positional := map pname (filter is_positional params) in
  let bound0 := firstn npos positional in
  bound <- fold_left
             (fun acc k =>
                b <- acc ;;
                if negb (name_in k (map pname params)) then Err TypeError
                else if name_in k b then Err TypeError
                else Ok (b ++ [k])%list)
             kws (Ok bound0) ;;
  if Nat.ltb (List.length positional) npos then Err TypeError
  else if forallb (fun p => has_default p || name_in (pname p) bound) params
  then Ok bound
  else Err TypeError.

Definition req (n : string) : param :=
  {| pname := n; pkind := PositionalOrKeyword; has_default := false |}.
Definition opt (n : string) : param :=
  {| pname := n; pkind := PositionalOrKeyword; has_default := true |}.
Definition kwreq (n : string) : param :=
  {| pname := n; pkind := KeywordOnly; has_default := false |}.
Definition kwopt (n : string) : param :=
  {| pname := n; pkind := KeywordOnly; has_default := true |}.

(** [AbstractCellSolver.__init__(self, *, mesh, time, cell_model, parameters=None)] *)
Definition AbstractCellSolver_params : list param :=
  [kwreq "mesh"; kwreq "time"; kwreq "cell_model"; kwopt "parameters"].

(** [BasicCardiacODESolver.__init__(self, mesh, time, model, I_s, parameters=None)] *)
Definition BasicCardiacODESolver_params : list param :=
  [req "mesh"; req "time"; req "model"; req "I_s"; opt "parameters"].

(** [CardiacODESolver.__init__(self, mesh, time, model, I_s=None, parameters=None)] *)
Definition CardiacODESolver_params : list param :=
  [req "mesh"; req "time"; req "model"; opt "I_s"; opt "parameters"].

(** [MultiCellSolver.__init__(self, time, mesh, cell_model, cell_function,
    valid_cell_tags, parameter_map, parameters=None)] *)
Definition MultiCellSolver_params : list param :=
  [req "time"; req "mesh"; req "cell_model"; req "cell_function";
   req "valid_cell_tags"; req "parameter_map"; opt "parameters"].

(** The [super().__init__] call of each cell solver's constructor: the
    class called and the shape of the call. *)
Inductive solver_class :=
| BasicCardiacODESolver | CardiacODESolver | MultiCellSolver
| BasicSingleCellSolver | SingleCellSolver | SingleMultiCellSolver.

Definition super_init_call (c : solver_class) : result (list string) :=
  match c with
  (* super().__init__(mesh=mesh, time=time, cell_model=model, parameters=parameters) *)
  | BasicCardiacODESolver | CardiacODESolver =>
      bind_args AbstractCellSolver_params 0 ["mesh"; "time"; "cell_model"; "parameters"]
  (* super().__init__(mesh=mesh, time=time, cell_model=cell_model, parameters=parameters) *)
  | MultiCellSolver =>
      bind_args AbstractCellSolver_params 0 ["mesh"; "time"; "cell_model"; "parameters"]
  (* super().__init__(mesh, time, model, I_s=model.stimulus, parameters=parameters) *)
  | BasicSingleCellSolver =>
      bind_args BasicCardiacODESolver_params 3 ["I_s"; "parameters"]
  | SingleCellSolver =>
      bind_args CardiacODESolver_params 3 ["I_s"; "parameters"]
  (* super().__init__(mesh, time, cell_model,
                      reload_ext_modules=reload_ext_modules, parameters=parameters) *)
  | SingleMultiCellSolver =>
      bind_args MultiCellSolver_params 3 ["reload_ext_modules"; "parameters"]
  end.

End PyCall.

(* ------------------------------------------------------------------------- *)
(** ** Concrete inputs used to evaluate the models *)

Module Inputs.
Open Scope float_scope.



(** Two cell models for a two-region run: model [A] with one state, model
    [B] with two; no ionic current, [ds/dt = 0] for [A] and
    [ds/dt = (0, 1)] for [B]. *)
Definition model_A : MultiCell.cell_ops :=
  {| MultiCell.num_states := 1;
     MultiCell.F := fun _ _ _ => [MultiCell.ECst 0%Q];
     MultiCell.I := fun _ _ _ => MultiCell.ECst 0%Q |}.

Definition model_B : MultiCell.cell_ops :=
  {| MultiCell.num_states := 2;
     MultiCell.F := fun _ _ _ => [MultiCell.ECst 0%Q; MultiCell.ECst 1%Q];
     MultiCell.I := fun _ _ _ => MultiCell.ECst 0%Q |}.

(** [UnitIntervalMesh(2)], cell 0 tagged 0 and cell 1 tagged 1. *)
Definition markers_01 : MultiCell.mesh_function :=
  {| MultiCell.mf_mesh := {| MultiCell.num_cells := 2 |};
     MultiCell.mf_array := [0%Z; 1%Z] |}.

(** [MultiCellModel((A, B), (0, 1), markers_01)] *)
Definition multi_AB : MultiCell.multi_cell_model :=
  {| MultiCell._cell_models := [model_A; model_B];
     MultiCell._keys := [0%Z; 1%Z];
     MultiCell._key_to_cell_model := MultiCell.dict_zip [0%Z; 1%Z];
     MultiCell._markers := markers_01;
     MultiCell._num_states := 2 |}.

(** A 3-cell mesh whose last cell is tagged 3, a tag no model is
    registered for. *)
Definition markers_013 : MultiCell.mesh_function :=
  {| MultiCell.mf_mesh := {| MultiCell.num_cells := 3 |};
     MultiCell.mf_array := [0%Z; 1%Z; 3%Z] |}.

End Inputs.

(* ========================================================================= *)
(** * Properties *)

(* ------------------------------------------------------------------------- *)
(** ** The end-of-time test *)

(** C5: [end_of_time(T, t0, t1, dt)] decides whether [(t0, t1)] is the last
    interval by testing [t1 + dt > T + DOLFIN_EPS]; on binary64 floats, for
    [T = 1.0] and [dt = 0.1] the interval [(0.9, 1.0)] (also as
    [(0.9, 0.9 + 0.1)]) is classified as the last one and [(0.8, 0.9)] (also
    as [(0.8, 0.8 + 0.1)]) is not. *)
Theorem end_of_time_boundary :
  (forall T t0 t1 dt : float,
      BeatUtils.end_of_time T t0 t1 dt
      = PrimFloat.ltb (PrimFloat.add T BeatUtils.DOLFIN_EPS) (PrimFloat.add t1 dt))
  /\ BeatUtils.end_of_time 1.0 0.9 1.0 0.1 = true
  /\ BeatUtils.end_of_time 1.0 0.9 (PrimFloat.add 0.9 0.1) 0.1 = true
  /\ BeatUtils.end_of_time 1.0 0.8 0.9 0.1 = false
  /\ BeatUtils.end_of_time 1.0 0.8 (PrimFloat.add 0.8 0.1) 0.1 = false.
Proof.
  split; [intros; reflexivity |].
  repeat split; vm_compute; reflexivity.
Qed.

(* ------------------------------------------------------------------------- *)
(** ** The timestep cache of [MonodomainSolver.step] *)





(* ------------------------------------------------------------------------- *)
(** ** Overriding parameters by name *)

(** C7 (evaluation at the failing input): [AdexManual().set_parameters(foo=1.0)]
    only prints that ['foo'] is not a parameter, then stores it: the
    parameter map gains an entry for the unknown name. *)
Theorem adex_set_unknown_parameter_is_stored :
  CellModelParams.set_parameters CellModelParams.AdexManual
    [("foo"%string, CellModelParams.PNum 1.0)]
  = (["'foo' is not a parameter in (Manual) AdEx neuronal cell model -- Slow version"%string],
     CellModelParams.with_parameters CellModelParams.AdexManual
       (CellModelParams.adex_default_parameters ++ [("foo"%string, CellModelParams.PNum 1.0)]))
  /\ CellModelParams.od_get "foo"
       (CellModelParams._parameters
          (snd (CellModelParams.set_parameters CellModelParams.AdexManual
                  [("foo"%string, CellModelParams.PNum 1.0)])))
     = Some (CellModelParams.PNum 1.0)
  /\ CellModelParams.od_get "foo"
       (CellModelParams._initial_conditions
          (snd (CellModelParams.set_initial_conditions CellModelParams.AdexManual
                  [("foo"%string, CellModelParams.PNum 1.0)])))
     = Some (CellModelParams.PNum 1.0).
Proof. vm_compute. repeat split. Qed.

(* ------------------------------------------------------------------------- *)
(** ** Dispatch of [F] and [I] without a region index *)

Lemma dict_get_none (d : list (MultiCell.pykey * nat)) :
  (forall k v, In (k, v) d -> exists z, k = MultiCell.KInt z) ->
  MultiCell.dict_get d MultiCell.KNone = Err KeyError.
Proof.
  induction d as [| [k v] r IH]; intros H; [reflexivity |].
  cbn. destruct (H k v (or_introl eq_refl)) as [z ->]. cbn.
  apply IH. intros k' v' Hin. exact (H k' v' (or_intror Hin)).
Qed.

Lemma dict_set_cons (k : MultiCell.pykey) (n : nat) (k0 : MultiCell.pykey) (v0 : nat)
  (r : list (MultiCell.pykey * nat)) :
  MultiCell.dict_set k n ((k0, v0) :: r)
  = if MultiCell.pykey_eqb k k0 then (k, n) :: r
    else (k0, v0) :: MultiCell.dict_set k n r.
Proof. reflexivity. Qed.

Lemma dict_set_int_keys (z : Z) (n : nat) (d : list (MultiCell.pykey * nat)) :
  (forall k v, In (k, v) d -> exists z', k = MultiCell.KInt z') ->
  forall k v, In (k, v) (MultiCell.dict_set (MultiCell.KInt z) n d) ->
  exists z', k = MultiCell.KInt z'.
Proof.
  induction d as [| [k0 v0] r IH]; intros H k v Hin.
  - destruct Hin as [Heq | []]. inversion Heq. eauto.
  - rewrite dict_set_cons in Hin.
    destruct (MultiCell.pykey_eqb (MultiCell.KInt z) k0).
    + destruct Hin as [Heq | Hin]; [inversion Heq; eauto |].
      exact (H k v (or_intror Hin)).
    + destruct Hin as [Heq | Hin]; [inversion Heq; subst; exact (H k v (or_introl eq_refl)) |].
      apply (IH (fun k' v' Hi => H k' v' (or_intror Hi)) k v Hin).
Qed.

Lemma dict_zip_fold_int_keys (l : list (Z * nat)) :
  forall d0,
  (forall k v, In (k, v) d0 -> exists z, k = MultiCell.KInt z) ->
  forall k v,
  In (k, v) (fold_left (fun d kv => MultiCell.dict_set (MultiCell.KInt (fst kv)) (snd kv) d) l d0) ->
  exists z, k = MultiCell.KInt z.
Proof.
  induction l as [| [z n] r IH]; intros d0 H0; cbn.
  - exact H0.
  - apply IH. apply dict_set_int_keys. exact H0.
Qed.

Lemma dict_zip_get_none (keys : list Z) :
  MultiCell.dict_get (MultiCell.dict_zip keys) MultiCell.KNone = Err KeyError.
Proof.
  apply dict_get_none. unfold MultiCell.dict_zip.
  apply dict_zip_fold_int_keys. intros k v [].
Qed.

(** C6: for a dispatcher built by [MultiCellModel.__init__] (whatever the
    number of models), calling [F] or [I] without [index] prints the usage
    message and raises [KeyError] from the key lookup, before any cell
    model is selected: no model's [F] or [I] is evaluated. *)
Theorem multi_dispatch_without_index_raises
  (models : list MultiCell.cell_ops) (keys : list Z) (markers : MultiCell.mesh_function)
  (m : MultiCell.multi_cell_model) (v : MultiCell.expr) (s : list MultiCell.expr) (t : Q) :
  MultiCell.MultiCellModel_init models keys markers = Ok m ->
  MultiCell.MultiCellModel_F m v s t None
    = (["(Domain) index must be specified for multi cell models"%string], Err KeyError)
  /\ MultiCell.MultiCellModel_I m v s t None
    = (["(Domain) index must be specified for multi cell models"%string], Err KeyError).
Proof.
  intros Hinit. unfold MultiCell.MultiCellModel_init in Hinit.
  destruct (MultiCell.py_max (map MultiCell.num_states models)); cbn in Hinit;
    [| discriminate].
  inversion Hinit; subst; clear Hinit.
  unfold MultiCell.MultiCellModel_F, MultiCell.MultiCellModel_I; cbn.
  rewrite dict_zip_get_none. split; reflexivity.
Qed.

(* ------------------------------------------------------------------------- *)
(** ** The spike-and-reset hook of [AdexManual] *)

Module AdexFacts.
Import AdexUpdate.
Open Scope float_scope.

Lemma Forall2_nth_error_l {A B : Type} (R : A -> B -> Prop) l1 l2 q x :
  Forall2 R l1 l2 -> nth_error l1 q = Some x ->
  exists y, nth_error l2 q = Some y /\ R x y.
Proof.
  intros HF. revert q. induction HF as [| a b r1 r2 Hab HF IH]; intros q Hq.
  - destruct q; discriminate.
  - destruct q as [| q]; cbn in Hq |- *.
    + inversion Hq; subst. eauto.
    + apply IH; exact Hq.
Qed.

Lemma gather_spec {A : Type} (a : list A) idx ys :
  gather a idx = Ok ys -> Forall2 (fun d y => nth_error a d = Some y) idx ys.
Proof.
  revert ys. induction idx as [| i r IH]; intros ys H; cbn in H.
  - inversion H. constructor.
  - destruct (nth_error a i) eqn:E; [| discriminate].
    destruct (gather a r) eqn:G; cbn in H; [| discriminate].
    inversion H; subst. constructor; auto.
Qed.

Lemma gather_complete {A : Type} (a : list A) idx :
  (forall d, In d idx -> nth_error a d <> None) -> exists ys, gather a idx = Ok ys.
Proof.
  induction idx as [| i r IH]; intros H; cbn.
  - eauto.
  - destruct (nth_error a i) eqn:E.
    + destruct IH as [ys ->]; [intros d Hd; apply H; now right |]. cbn. eauto.
    + exfalso. apply (H i (or_introl eq_refl)). exact E.
Qed.

Lemma gather_in {A : Type} (a : list A) idx ys y :
  gather a idx = Ok ys -> In y ys -> exists d, In d idx /\ nth_error a d = Some y.
Proof.
  intros G Hy. apply gather_spec in G.
  induction G as [| d y' r1 r2 Hd G IH]; [destruct Hy |].
  destruct Hy as [<- | Hy]; [exists d; split; [now left | exact Hd] |].
  destruct (IH Hy) as [d' [Hin Hn]]. exists d'. split; [now right | exact Hn].
Qed.

Lemma set_at_length (a : list float) i x : List.length (set_at a i x) = List.length a.
Proof.
  revert i. induction a as [| y r IH]; intros [| i]; cbn; auto.
Qed.

Lemma nth_set_at_other (a : list float) i x j :
  i <> j -> nth_error (set_at a i x) j = nth_error a j.
Proof.
  revert i j. induction a as [| y r IH]; intros [| i] [| j] Hij; cbn; auto.
  - congruence.
Qed.

Lemma nth_set_at_same (a : list float) i x :
  (i < List.length a)%nat -> nth_error (set_at a i x) i = Some x.
Proof.
  revert i. induction a as [| y r IH]; intros [| i] Hi; cbn in *; try lia; auto.
  apply IH. lia.
Qed.

Lemma scatter_cons (a : list float) i r x xs :
  scatter a (i :: r) (x :: xs)
  = if Nat.ltb i (List.length a) then scatter (set_at a i x) r xs else Err IndexError.
Proof. reflexivity. Qed.

Lemma scatter_other (a : list float) idx vals a' :
  scatter a idx vals = Ok a' -> forall j, ~ In j idx -> nth_error a' j = nth_error a j.
Proof.
  revert a vals. induction idx as [| i r IH]; intros a vals H j Hj.
  - inversion H. reflexivity.
  - destruct vals as [| x xs].
    + inversion H. reflexivity.
    + rewrite scatter_cons in H.
      destruct (Nat.ltb i (List.length a)); [| discriminate].
      assert (Hr : ~ In j r) by (intros Hr; apply Hj; now right).
      rewrite (IH _ _ H j Hr).
      apply nth_set_at_other. intros Hij. apply Hj. left. exact Hij.
Qed.

Lemma scatter_const (a : list float) idx c a' :
  scatter a idx (repeat c (List.length idx)) = Ok a' ->
  forall j, In j idx -> nth_error a' j = Some c.
Proof.
  revert a. induction idx as [| i r IH]; intros a H j Hj; [destruct Hj |].
  change (repeat c (List.length (i :: r))) with (c :: repeat c (List.length r)) in H.
  rewrite scatter_cons in H.
  destruct (Nat.ltb i (List.length a)) eqn:Hlt; [| discriminate].
  destruct (in_dec Nat.eq_dec j r) as [Hr | Hr].
  - exact (IH _ H j Hr).
  - destruct Hj as [<- | Hj]; [| contradiction].
    rewrite (scatter_other _ _ _ _ H i Hr).
    apply nth_set_at_same. apply Nat.ltb_lt. exact Hlt.
Qed.

Lemma where_from_in i mask q :
  nth_error mask q = Some true -> In (i + q)%nat (where_from i mask).
Proof.
  revert i q. induction mask as [| b r IH]; intros i q Hq; [destruct q; discriminate |].
  destruct q as [| q]; cbn in Hq.
  - inversion Hq; subst. cbn. left. lia.
  - destruct b; cbn; [right |];
      replace (i + S q)%nat with (S i + q)%nat by lia; apply IH; exact Hq.
Qed.

Lemma where_from_all_false i mask :
  (forall b, In b mask -> b = false) -> where_from i mask = [].
Proof.
  revert i. induction mask as [| b r IH]; intros i H; [reflexivity |].
  rewrite (H b (or_introl eq_refl)). cbn. apply IH. intros b' Hb. apply H. now right.
Qed.

(** After one [update] with a reset value not above the threshold, no
    potential dof is above the threshold. *)
Lemma update_below_threshold (p : CellModelParams.odict) spike E b
  (Vdofs Wdofs : list nat) (vec vec1 : list float) :
  param_num p "spike" = Ok spike -> param_num p "E_L" = Ok E ->
  param_num p "b" = Ok b -> gtb E spike = false ->
  (forall d, In d Vdofs -> ~ In d Wdofs) ->
  update p Vdofs Wdofs vec = Ok vec1 ->
  forall d, In d Vdofs -> exists y, nth_error vec1 d = Some y /\ gtb y spike = false.
Proof.
  intros Hs HE Hb HEs Hdisj H d Hd.
  unfold update in H.
  destruct (gather vec Vdofs) as [vV |] eqn:Gv; cbn in H; [| discriminate].
  rewrite Hs in H; cbn in H. rewrite HE in H; cbn in H.
  set (toflip := where_ (map (fun x => gtb x spike) vV)) in H.
  destruct (gather Vdofs toflip) as [vidx |] eqn:Gi; cbn in H; [| discriminate].
  destruct (scatter vec vidx (repeat E (List.length vidx))) as [vecA |] eqn:Sa;
    cbn in H; [| discriminate].
  destruct (gather Wdofs toflip) as [widx |] eqn:Gw; cbn in H; [| discriminate].
  destruct (gather vecA widx) as [wv |] eqn:Gwv; cbn in H; [| discriminate].
  rewrite Hb in H; cbn in H.
  assert (Hnw : ~ In d widx).
  { intros Hin. destruct (gather_in _ _ _ _ Gw Hin) as [q [_ Hq]].
    apply (Hdisj d Hd). eapply nth_error_In. exact Hq. }
  rewrite (scatter_other _ _ _ _ H d Hnw).
  destruct (in_dec Nat.eq_dec d vidx) as [Hi | Hi].
  - exists E. split; [exact (scatter_const _ _ _ _ Sa d Hi) | exact HEs].
  - rewrite (scatter_other _ _ _ _ Sa d Hi).
    destruct (In_nth_error _ _ Hd) as [pos Hpos].
    destruct (Forall2_nth_error_l _ _ _ _ _ (gather_spec _ _ _ Gv) Hpos)
      as [y0 [Hy0 Hvec]].
    exists y0. split; [exact Hvec |].
    destruct (gtb y0 spike) eqn:Hle; [exfalso | reflexivity].
    assert (Hmask : nth_error (map (fun x => gtb x spike) vV) pos = Some true).
    { rewrite nth_error_map, Hy0. cbn. rewrite Hle. reflexivity. }
    pose proof (where_from_in 0 _ _ Hmask) as Hin. cbn in Hin.
    destruct (In_nth_error _ _ Hin) as [qpos Hq].
    destruct (Forall2_nth_error_l _ _ _ _ _ (gather_spec _ _ _ Gi) Hq)
      as [d' [Hd' Hvd]].
    rewrite Hpos in Hvd. inversion Hvd; subst.
    apply Hi. eapply nth_error_In. exact Hd'.
Qed.

Lemma update_idempotent_gen (p : CellModelParams.odict) spike E b
  (Vdofs Wdofs : list nat) (vec vec1 : list float) :
  param_num p "spike" = Ok spike -> param_num p "E_L" = Ok E ->
  param_num p "b" = Ok b -> gtb E spike = false ->
  (forall d, In d Vdofs -> ~ In d Wdofs) ->
  update p Vdofs Wdofs vec = Ok vec1 ->
  update p Vdofs Wdofs vec1 = Ok vec1.
Proof.
  intros Hs HE Hb HEs Hdisj H.
  pose proof (update_below_threshold p spike E b Vdofs Wdofs vec vec1
                Hs HE Hb HEs Hdisj H) as Hbelow.
  destruct (gather_complete vec1 Vdofs) as [vV1 G1].
  { intros d Hd. destruct (Hbelow d Hd) as [y [Hy _]]. rewrite Hy. discriminate. }
  unfold update. rewrite G1; cbn. rewrite Hs; cbn. rewrite HE; cbn.
  assert (Hw : where_ (map (fun x => gtb x spike) vV1) = []).
  { apply where_from_all_false. intros bb Hbb.
    apply in_map_iff in Hbb. destruct Hbb as [y [<- Hy]].
    destruct (gather_in _ _ _ _ G1 Hy) as [d [Hd Hn]].
    destruct (Hbelow d Hd) as [y' [Hy' Hle]].
    rewrite Hn in Hy'. inversion Hy'; subst. exact Hle. }
  rewrite Hw. cbn. rewrite Hb. reflexivity.
Qed.

End AdexFacts.

(** C9: with the default AdEx parameters ([E_L = -62] below
    [spike = 20]), for any state vector and any disjoint dof lists of the
    sub-spaces [V] and [w], once [update] has run, running it again leaves
    every component of the state unchanged. *)
Theorem adex_update_idempotent (Vdofs Wdofs : list nat) (vec vec1 : list float) :
  (forall d, In d Vdofs -> ~ In d Wdofs) ->
  AdexUpdate.update CellModelParams.adex_default_parameters Vdofs Wdofs vec = Ok vec1 ->
  AdexUpdate.update CellModelParams.adex_default_parameters Vdofs Wdofs vec1 = Ok vec1.
Proof.
  apply (AdexFacts.update_idempotent_gen _ 20.0 (-62.0) 0.061);
    reflexivity.
Qed.

Lemma adex_update_idempotent_witness :
  AdexUpdate.update CellModelParams.adex_default_parameters [0; 2]%nat [1; 3]%nat
    [-62.0; 0.061; 5.0; 1.0]%float
  = Ok [-62.0; 0.061; 5.0; 1.0]%float.
Proof.
  apply (adex_update_idempotent [0; 2]%nat [1; 3]%nat [30.0; 0.0; 5.0; 1.0]%float).
  - intros d Hd Hw. cbn in Hd, Hw. lia.
  - vm_compute. reflexivity.
Defined.

Lemma multi_dispatch_without_index_raises_witness :
  MultiCell.MultiCellModel_F Inputs.multi_AB (MultiCell.ECur 0) [MultiCell.ECur 1] 0%Q None
    = (["(Domain) index must be specified for multi cell models"%string], Err KeyError)
  /\ MultiCell.MultiCellModel_I Inputs.multi_AB (MultiCell.ECur 0) [MultiCell.ECur 1] 0%Q None
    = (["(Domain) index must be specified for multi cell models"%string], Err KeyError).
Proof.
  apply (multi_dispatch_without_index_raises [Inputs.model_A; Inputs.model_B] [0%Z; 1%Z]
           Inputs.markers_01).
  reflexivity.
Defined.

(* ------------------------------------------------------------------------- *)
(** ** The solution generator of the cell solvers *)

Lemma solve_loop_length (St Field : Type) (step : Q -> Q -> St -> St) (vs : St -> Field)
  (assign_prev : St -> St) (ivs : list (Q * Q)) (s : St) :
  List.length (fst (CellSolve.solve_loop St Field step vs assign_prev ivs s))
  = List.length ivs.
Proof.
  revert s. induction ivs as [| [a b] rest IH]; intros s; [reflexivity |].
  cbn. specialize (IH (assign_prev (step a b s))).
  destruct (CellSolve.solve_loop St Field step vs assign_prev rest
              (assign_prev (step a b s))) as [ys s3].
  cbn in *. rewrite IH. reflexivity.
Qed.

Lemma solve_loop_intervals (St Field : Type) (step : Q -> Q -> St -> St) (vs : St -> Field)
  (assign_prev : St -> St) (ivs : list (Q * Q)) (s : St) :
  map fst (fst (CellSolve.solve_loop St Field step vs assign_prev ivs s)) = ivs.
Proof.
  revert s. induction ivs as [| [a b] rest IH]; intros s; [reflexivity |].
  cbn. specialize (IH (assign_prev (step a b s))).
  destruct (CellSolve.solve_loop St Field step vs assign_prev rest
              (assign_prev (step a b s))) as [ys s3].
  cbn in *. rewrite IH. reflexivity.
Qed.

(** C1 (evaluation of the code): for any cell solver (any [step]) and any
    [t0], [t1], [dt], the generator [solve(t0, t1, dt)] yields one
    [((a, b), vs)] pair per interval of the time stepper, in order, and
    when the consumer asks for the element after the last one it raises
    [AssertionError] ([assert False] after the loop). At [t0 = 0],
    [t1 = 1], [dt = 0.5]: two pairs, then [AssertionError]. *)
Theorem cell_solve_exhausted_raises :
  (forall (St Field : Type) (step : Q -> Q -> St -> St) (vs : St -> Field)
     (assign_prev : St -> St) (t0 t1 dt : Q) (s : St),
     let run := CellSolve.solve St Field step vs assign_prev t0 t1 (Some dt) s in
     map fst (CellSolve.yields run) = CellSolve.time_stepper t0 t1 dt
     /\ CellSolve.ending run = CellSolve.Raised AssertionError)
  /\ (let run := CellSolve.solve nat nat (fun _ _ n => S n) (fun n => n) (fun n => n)
                   0 1 (Some (1 # 2)) 0%nat in
      List.length (CellSolve.yields run) = 2%nat
      /\ CellSolve.ending run = CellSolve.Raised AssertionError).
Proof.
  split.
  - intros St Field step vs assign_prev t0 t1 dt s run. unfold run, CellSolve.solve.
    pose proof (solve_loop_intervals St Field step vs assign_prev
                  (CellSolve.time_stepper t0 t1 dt) s) as H.
    destruct (CellSolve.solve_loop St Field step vs assign_prev
                (CellSolve.time_stepper t0 t1 dt) s) as [ys s'].
    cbn in *. split; [exact H | reflexivity].
  - vm_compute. split; reflexivity.
Qed.

(* ------------------------------------------------------------------------- *)
(** ** What the previous field looks like after each [step] variant *)

(** C8 (amended): [BasicCardiacODESolver.step] and [CardiacODESolver.step]
    leave the previous field [vs_] as it was and write the current field;
    [MultiCellSolver.step] hands [vs_] to the native integrator, which
    advances it in place, and copies it into [vs]: afterwards both fields
    hold the advanced state. *)
Theorem step_variants_previous_field
  (theta_solve : list Q -> list Q -> Q -> Q -> list Q)
  (pi_step : Q -> Q -> list Q -> list Q * Q)
  (lattice_solve : list Q -> Q -> Q -> Q -> list Q -> list Q)
  (theta : Q) (indicator : list Q) (t0 t1 : Q) (f : StepVariants.fields) :
  StepVariants.vs_ (StepVariants.basic_step theta_solve theta t0 t1 f) = StepVariants.vs_ f
  /\ StepVariants.vs_ (StepVariants.cardiac_step pi_step t0 t1 f) = StepVariants.vs_ f
  /\ StepVariants.vs_ (StepVariants.multi_step lattice_solve theta indicator t0 t1 f)
     = lattice_solve (StepVariants.vs_ f) t0 t1 (t1 - t0) indicator
  /\ StepVariants.vs (StepVariants.multi_step lattice_solve theta indicator t0 t1 f)
     = StepVariants.vs_ (StepVariants.multi_step lattice_solve theta indicator t0 t1 f).
Proof.
  unfold StepVariants.cardiac_step.
  destruct (pi_step (StepVariants.time f) (t1 - t0) (StepVariants.vs_ f)).
  repeat split.
Qed.

(** C8 (counterexample): [MultiCellSolver.step] over [(0, 0.5)] with a
    native integrator doing one Euler step of [ds/dt = -s] changes the
    previous field from [[1]] to [[0.5]]. *)
Lemma multi_step_changes_previous_field :
  let f0 := {| StepVariants.vs_ := [1]; StepVariants.vs := [1]; StepVariants.time := 0 |} in
  let f1 := StepVariants.multi_step StepVariants.euler_decay (1 # 2) [1] 0 (1 # 2) f0 in
  ~ (hd 0 (StepVariants.vs_ f1) == hd 0 (StepVariants.vs_ f0)).
Proof. vm_compute. intros H. discriminate H. Qed.

(* ------------------------------------------------------------------------- *)
(** ** [MultiCellModel.initial_conditions] never returns *)

(** C10: whatever the dolfin calls do, and for any models, keys, markers
    and state count, [MultiCellModel.initial_conditions()] raises: the
    statement [a = inner(u, v)*dy(i_k)] reads the local [i_k] before the
    loop assigns it. When every dolfin call succeeds, the exception is
    [UnboundLocalError] for [i_k]. *)
Theorem multi_initial_conditions_raises :
  (forall (dolfin : string -> list InitialConditions.pyval -> result InitialConditions.pyval)
     models keys markers num_states,
     is_err (InitialConditions.initial_conditions dolfin models keys markers num_states [])
     = true)
  /\ (forall (dolfin : string -> list InitialConditions.pyval -> result InitialConditions.pyval)
       models keys markers num_states,
      (forall f args, exists v, dolfin f args = Ok v) ->
      InitialConditions.initial_conditions dolfin models keys markers num_states []
      = Err (UnboundLocalError "i_k")).
Proof.
  split.
  - intros dolfin models keys markers num_states.
    unfold InitialConditions.initial_conditions, InitialConditions.mbind,
      InitialConditions.call, InitialConditions.assign, InitialConditions.read.
    cbn.
    repeat match goal with
           | |- context [match dolfin ?f ?a with _ => _ end] =>
               destruct (dolfin f a); cbn
           end; reflexivity.
  - intros dolfin models keys markers num_states Hok.
    unfold InitialConditions.initial_conditions, InitialConditions.mbind,
      InitialConditions.call, InitialConditions.assign, InitialConditions.read.
    cbn.
    repeat match goal with
           | |- context [match dolfin ?f ?a with _ => _ end] =>
               let v := fresh "v" in
               let Hv := fresh "Hv" in
               destruct (Hok f a) as [v Hv]; rewrite Hv; cbn
           end; reflexivity.
Qed.

Lemma multi_initial_conditions_raises_witness :
  (forall (f : string) (args : list InitialConditions.pyval),
     exists v, (fun f _ => Ok (InitialConditions.VStr f)) f args = Ok v)
  /\ InitialConditions.initial_conditions (fun f _ => Ok (InitialConditions.VStr f))
       [InitialConditions.VStr "A"; InitialConditions.VStr "B"] [0%Z; 1%Z]
       (InitialConditions.VStr "markers") 2%Z []
     = Err (UnboundLocalError "i_k").
Proof.
  assert (H : forall (f : string) (args : list InitialConditions.pyval),
             exists v, (fun f _ => Ok (InitialConditions.VStr f)) f args = Ok v)
    by (intros f args; eexists; reflexivity).
  split; [exact H |].
  exact (proj2 multi_initial_conditions_raises _ _ _ _ _ H).
Defined.

(* ------------------------------------------------------------------------- *)
(** ** Where cell tags are checked *)

Module TagFacts.
Import TagCheck.

Lemma zmem_set_of (z : Z) (l : list Z) : zmem z (set_of l) = zmem z l.
Proof.
  revert z. induction l as [| x r IH]; intros z; [reflexivity |].
  cbn [set_of]. destruct (zmem x (set_of r)) eqn:Hx.
  - rewrite IH. rewrite IH in Hx. unfold zmem in *. cbn.
    destruct (Z.eqb_spec z x) as [-> |]; cbn; [now rewrite Hx | reflexivity].
  - unfold zmem in *. cbn. now rewrite IH.
Qed.

Lemma zmem_app (z : Z) (a b : list Z) : zmem z (a ++ b) = zmem z a || zmem z b.
Proof. unfold zmem. apply existsb_app. Qed.

Lemma zmem_cons (z y : Z) (r : list Z) : zmem z (y :: r) = Z.eqb z y || zmem z r.
Proof. reflexivity. Qed.

Lemma zmem_filter_not_in (z : Z) (a b : list Z) :
  zmem z (filter (fun y => negb (zmem y a)) b) = negb (zmem z a) && zmem z b.
Proof.
  induction b as [| y r IH]; [now rewrite andb_false_r |].
  cbn [filter]. rewrite zmem_cons.
  destruct (zmem y a) eqn:Hy; cbn [negb].
  - rewrite IH. destruct (Z.eqb_spec z y) as [Hzy | Hne]; cbn [orb].
    + subst y. now rewrite Hy.
    + reflexivity.
  - rewrite zmem_cons, IH. destruct (Z.eqb_spec z y) as [Hzy | Hne]; cbn [orb].
    + subst y. now rewrite Hy.
    + reflexivity.
Qed.

Lemma zmem_union (z : Z) (a b : list Z) :
  zmem z (set_union a b) = zmem z a || zmem z b.
Proof.
  unfold set_union. rewrite zmem_app, zmem_filter_not_in, zmem_set_of.
  destruct (zmem z a), (zmem z b); reflexivity.
Qed.

Lemma zmem_fold_union (z : Z) (r : list (list Z)) (x : list Z) :
  zmem z (fold_left set_union r x) = zmem z x || existsb (zmem z) r.
Proof.
  revert x. induction r as [| y r IH]; intros x; cbn [fold_left existsb].
  - now rewrite orb_false_r.
  - rewrite IH, zmem_union. symmetry. apply orb_assoc.
Qed.

Lemma forallb_set_of (f : Z -> bool) (l : list Z) :
  forallb f (set_of l) = forallb f l.
Proof.
  induction l as [| x r IH]; [reflexivity |].
  cbn [set_of forallb]. destruct (zmem x (set_of r)) eqn:Hx.
  - rewrite IH. rewrite zmem_set_of in Hx.
    destruct (forallb f r) eqn:Hr; [| now rewrite andb_false_r].
    unfold zmem in Hx. apply existsb_exists in Hx as [y [Hy Hxy]].
    apply Z.eqb_eq in Hxy. subst y.
    rewrite forallb_forall in Hr. now rewrite (Hr x Hy).
  - cbn. now rewrite IH.
Qed.

Lemma check_tags_spec (rank : nat) (arrays : list (list Z)) (valid : list Z) :
  arrays <> [] ->
  MultiCellSolver_check_tags rank arrays valid
  = if Nat.eqb rank 0 then
      if forallb (fun z => existsb (zmem z) arrays) valid then Ok tt
      else Err (ValueError "Valid cell tag not found in cell function.")
    else Ok tt.
Proof.
  intros Hne. unfold MultiCellSolver_check_tags.
  destruct (Nat.eqb rank 0); [| reflexivity].
  destruct arrays as [| a rest]; [congruence |]. cbn [map reduce_or bind].
  unfold set_le. rewrite forallb_set_of.
  assert (Hf : forall l : list Z,
             forallb (fun z => zmem z (fold_left set_union (map set_of rest) (set_of a))) l
             = forallb (fun z => existsb (zmem z) (a :: rest)) l).
  { intros l. induction l as [| z l IHl]; [reflexivity |].
    cbn [forallb]. rewrite IHl. f_equal.
    rewrite zmem_fold_union, zmem_set_of. cbn [existsb]. f_equal.
    clear. induction rest as [| b r IH]; [reflexivity |].
    cbn [map existsb]. now rewrite zmem_set_of, IH. }
  rewrite Hf. destruct (forallb _ valid); reflexivity.
Qed.

End TagFacts.

Lemma multicell_init_ok (models : list MultiCell.cell_ops) (keys : list Z)
  (markers : MultiCell.mesh_function) :
  models <> [] -> exists m, MultiCell.MultiCellModel_init models keys markers = Ok m.
Proof.
  intros Hne. unfold MultiCell.MultiCellModel_init.
  destruct models as [| mk rest]; [congruence |]. cbn. eexists; reflexivity.
Qed.

(** C2 (counterexample): [MultiCellModel((A, B), (0, 1), markers)] with
    a cell tagged 3 is built without error, and the tag check of
    [MultiCellSolver] (rank 0, one process) also passes: no error is raised
    for a mesh tag that has no registered cell model. *)
Lemma unregistered_mesh_tag_accepted :
  (exists m, MultiCell.MultiCellModel_init [Inputs.model_A; Inputs.model_B] [0%Z; 1%Z]
               Inputs.markers_013 = Ok m)
  /\ In 3%Z (MultiCell.mf_array Inputs.markers_013)
  /\ ~ In 3%Z [0%Z; 1%Z]
  /\ TagCheck.MultiCellSolver_check_tags 0 [MultiCell.mf_array Inputs.markers_013]
       [0%Z; 1%Z] = Ok tt.
Proof.
  split; [eexists; reflexivity |].
  split; [cbn; tauto |].
  split; [cbn; lia |].
  vm_compute. reflexivity.
Qed.

(** C2 (amended): [MultiCellModel.__init__] checks no tag: given at least
    one model it always succeeds, whatever the markers. The only check is
    the one of [MultiCellSolver.__init__], on rank 0, and it goes the
    other way: it raises [ValueError] exactly when some valid cell tag
    occurs in no process's part of the cell function. Mesh tags with no
    registered model are not detected. *)
Theorem multicell_tag_validation (models : list MultiCell.cell_ops) (keys : list Z)
  (markers : MultiCell.mesh_function) (rank : nat) (arrays : list (list Z))
  (valid : list Z) :
  models <> [] -> arrays <> [] ->
  (exists m, MultiCell.MultiCellModel_init models keys markers = Ok m)
  /\ TagCheck.MultiCellSolver_check_tags rank arrays valid
     = if Nat.eqb rank 0 then
         if forallb (fun z => existsb (TagCheck.zmem z) arrays) valid then Ok tt
         else Err (ValueError "Valid cell tag not found in cell function.")
       else Ok tt.
Proof.
  intros Hm Ha. split.
  - now apply multicell_init_ok.
  - now apply TagFacts.check_tags_spec.
Qed.

Lemma multicell_tag_validation_witness :
  ([Inputs.model_A; Inputs.model_B] <> [])
  /\ ([[0%Z; 1%Z]; [1%Z; 2%Z]] <> [])
  /\ (exists m, MultiCell.MultiCellModel_init [Inputs.model_A; Inputs.model_B] [0%Z; 1%Z]
                  Inputs.markers_01 = Ok m)
  /\ TagCheck.MultiCellSolver_check_tags 0 [[0%Z; 1%Z]; [1%Z; 2%Z]] [0%Z; 5%Z]
     = (if Nat.eqb 0 0 then
          if forallb (fun z => existsb (TagCheck.zmem z) [[0%Z; 1%Z]; [1%Z; 2%Z]])
               [0%Z; 5%Z] then Ok tt
          else Err (ValueError "Valid cell tag not found in cell function.")
        else Ok tt).
Proof.
  assert (H1 : [Inputs.model_A; Inputs.model_B] <> []) by discriminate.
  assert (H2 : [[0%Z; 1%Z]; [1%Z; 2%Z]] <> []) by discriminate.
  split; [exact H1 |]. split; [exact H2 |].
  exact (multicell_tag_validation [Inputs.model_A; Inputs.model_B] [0%Z; 1%Z]
           Inputs.markers_01 0 [[0%Z; 1%Z]; [1%Z; 2%Z]] [0%Z; 5%Z] H1 H2).
Defined.

(* ------------------------------------------------------------------------- *)
(** ** The multi-region branch of [BasicCardiacODESolver.step] *)

(** C3 (code bug): a [BasicCardiacODESolver] built over a [MultiCellModel]
    never reaches the region loop that adds the padding terms: on this
    branch [step] reads [self._model], which its constructor never sets, and
    raises [AttributeError] before any residual is built, whatever the
    parameters, the stimulus, the cell models and the interval. *)
Theorem basic_cardiac_step_multicell_raises (theta_ : Q) (I_s : option Q)
  (model : MultiCell.multi_cell_model) (t0 t1 : Q) :
  ThetaStep.step_form (ThetaStep.BasicCardiacODESolver_init theta_ I_s model) t0 t1
  = Err (AttributeError "_model").
Proof. reflexivity. Qed.

(* ========================================================================= *)
(** * Further properties of the code *)

(* ------------------------------------------------------------------------- *)
(** ** [AdexManual.update]: what it writes and where *)

Module AdexUpdateFacts.
Import AdexUpdate.
Open Scope float_scope.

Lemma where_from_spec i mask j :
  In j (where_from i mask) -> exists q, j = (i + q)%nat /\ nth_error mask q = Some true.
Proof.
  revert i. induction mask as [| b r IH]; intros i Hj; [destruct Hj |].
  destruct b; cbn in Hj.
  - destruct Hj as [<- | Hj]; [exists O; split; [lia | reflexivity] |].
    destruct (IH _ Hj) as [q [-> Hq]]. exists (S q). split; [lia | exact Hq].
  - destruct (IH _ Hj) as [q [-> Hq]]. exists (S q). split; [lia | exact Hq].
Qed.

Lemma gather_nth {A : Type} (a : list A) idx ys t d :
  gather a idx = Ok ys -> nth_error idx t = Some d ->
  exists y, nth_error ys t = Some y /\ nth_error a d = Some y.
Proof.
  intros G Ht. apply AdexFacts.gather_spec in G.
  exact (AdexFacts.Forall2_nth_error_l _ _ _ _ _ G Ht).
Qed.

Lemma gather_length {A : Type} (a : list A) idx ys :
  gather a idx = Ok ys -> List.length ys = List.length idx.
Proof.
  intros G. apply AdexFacts.gather_spec in G. symmetry. exact (Forall2_length G).
Qed.

Lemma gather_out_of_range {A : Type} (a : list A) idx d :
  In d idx -> nth_error a d = None -> gather a idx = Err IndexError.
Proof.
  induction idx as [| i r IH]; intros Hd Hn; [destruct Hd |]. cbn.
  destruct (nth_error a i) eqn:E.
  - destruct Hd as [-> | Hd]; [congruence |]. rewrite (IH Hd Hn). reflexivity.
  - reflexivity.
Qed.

(** A position of a duplicate-free index list is picked by [gather] exactly
    when its position is among the picked ones. *)
Lemma gather_nodup_in (l : list nat) sel ys q d :
  gather l sel = Ok ys -> NoDup l -> nth_error l q = Some d ->
  (In d ys <-> In q sel).
Proof.
  intros G Hnd Hq. split.
  - intros Hd. destruct (AdexFacts.gather_in _ _ _ _ G Hd) as [t [Ht Hnt]].
    assert (t = q) as ->; [| exact Ht].
    apply (proj1 (NoDup_nth_error l) Hnd).
    + apply nth_error_Some. congruence.
    + congruence.
  - intros Hin. destruct (In_nth_error _ _ Hin) as [t Ht].
    destruct (gather_nth _ _ _ _ _ G Ht) as [y [Hy Hly]].
    assert (y = d) by congruence. subst y. exact (nth_error_In _ _ Hy).
Qed.

Lemma gather_sub (l : list nat) sel ys d :
  gather l sel = Ok ys -> In d ys -> In d l.
Proof.
  intros G Hd. destruct (AdexFacts.gather_in _ _ _ _ G Hd) as [t [_ Ht]].
  exact (nth_error_In _ _ Ht).
Qed.

Lemma nodup_app_disjoint (l l' : list nat) a :
  NoDup (l ++ l') -> In a l -> ~ In a l'.
Proof.
  induction l as [| x r IH]; intros Hnd Ha; [destruct Ha |].
  inversion Hnd as [| x' r' Hx Hr]; subst.
  destruct Ha as [<- | Ha].
  - intros Hl. apply Hx. apply in_or_app. now right.
  - exact (IH Hr Ha).
Qed.

Lemma scatter_length (a : list float) idx vals a' :
  scatter a idx vals = Ok a' -> List.length a' = List.length a.
Proof.
  revert a vals. induction idx as [| i r IH]; intros a vals H.
  - inversion H. reflexivity.
  - destruct vals as [| x xs]; [inversion H; reflexivity |].
    rewrite AdexFacts.scatter_cons in H.
    destruct (Nat.ltb i (List.length a)); [| discriminate].
    rewrite (IH _ _ H). apply AdexFacts.set_at_length.
Qed.

(** A position written only with the value [c] ends up holding [c]. *)
Lemma scatter_uniform (a : list float) idx vals a' j c :
  scatter a idx vals = Ok a' -> List.length vals = List.length idx -> In j idx ->
  (forall t v, nth_error idx t = Some j -> nth_error vals t = Some v -> v = c) ->
  nth_error a' j = Some c.
Proof.
  revert a vals. induction idx as [| i r IH]; intros a vals H Hlen Hj Hc; [destruct Hj |].
  destruct vals as [| x xs]; [discriminate |].
  rewrite AdexFacts.scatter_cons in H.
  destruct (Nat.ltb i (List.length a)) eqn:Hlt; [| discriminate].
  destruct (in_dec Nat.eq_dec j r) as [Hr | Hr].
  - apply (IH _ xs H); [cbn in Hlen; lia | exact Hr |].
    intros t v Ht Hv. exact (Hc (S t) v Ht Hv).
  - destruct Hj as [<- | Hj]; [| contradiction].
    rewrite (AdexFacts.scatter_other _ _ _ _ H i Hr).
    rewrite AdexFacts.nth_set_at_same; [| apply Nat.ltb_lt; exact Hlt].
    f_equal. exact (Hc O x eq_refl eq_refl).
Qed.

Ltac ok_step H x :=
  match type of H with
  | bind ?c _ = Ok _ =>
      let E := fresh "E" in
      destruct c as [x |] eqn:E; cbn [bind] in H; [| discriminate]
  end.

End AdexUpdateFacts.

(** [AdexManual.update] leaves every entry outside the potential and
    recovery dofs as it was and keeps the length of the array; a potential
    dof outside the array raises [IndexError] before anything is written. *)
Theorem adex_update_frame (p : CellModelParams.odict) (Vdofs Wdofs : list nat)
  (vec vec1 : list float) :
  (AdexUpdate.update p Vdofs Wdofs vec = Ok vec1 ->
   List.length vec1 = List.length vec /\
   forall j, ~ In j Vdofs -> ~ In j Wdofs -> nth_error vec1 j = nth_error vec j) /\
  ((exists d, In d Vdofs /\ (List.length vec <= d)%nat) ->
   AdexUpdate.update p Vdofs Wdofs vec = Err IndexError).
Proof.
  split.
  - intros H. unfold AdexUpdate.update in H.
    AdexUpdateFacts.ok_step H vV. AdexUpdateFacts.ok_step H spike.
    AdexUpdateFacts.ok_step H E_L. AdexUpdateFacts.ok_step H vidx.
    AdexUpdateFacts.ok_step H vec1'. AdexUpdateFacts.ok_step H widx.
    AdexUpdateFacts.ok_step H wv. AdexUpdateFacts.ok_step H b.
    split.
    + rewrite (AdexUpdateFacts.scatter_length _ _ _ _ H).
      exact (AdexUpdateFacts.scatter_length _ _ _ _ E3).
    + intros j HV HW.
      rewrite (AdexFacts.scatter_other _ _ _ _ H j);
        [| intros Hj; exact (HW (AdexUpdateFacts.gather_sub _ _ _ _ E4 Hj))].
      apply (AdexFacts.scatter_other _ _ _ _ E3 j).
      intros Hj. exact (HV (AdexUpdateFacts.gather_sub _ _ _ _ E2 Hj)).
  - intros [d [Hd Hlen]]. unfold AdexUpdate.update.
    rewrite (AdexUpdateFacts.gather_out_of_range vec Vdofs d Hd);
      [reflexivity | apply nth_error_None; exact Hlen].
Qed.

(** For a potential dof [Vdofs[q]] and its recovery dof [Wdofs[q]] (all dofs
    distinct), a successful [AdexManual.update] resets the potential to
    [E_L] and adds [b] to the recovery variable when the potential is above
    [spike] (numpy's float64 [>] and [+=]), and leaves both as they were
    otherwise. *)
Theorem adex_update_cell (p : CellModelParams.odict) (spike E_L b : float)
  (Vdofs Wdofs : list nat) (vec vec1 : list float) (q dv dw : nat) :
  AdexUpdate.param_num p "spike" = Ok spike ->
  AdexUpdate.param_num p "E_L" = Ok E_L ->
  AdexUpdate.param_num p "b" = Ok b ->
  NoDup (Vdofs ++ Wdofs) ->
  AdexUpdate.update p Vdofs Wdofs vec = Ok vec1 ->
  nth_error Vdofs q = Some dv -> nth_error Wdofs q = Some dw ->
  exists x, nth_error vec dv = Some x /\
    if AdexUpdate.gtb x spike
    then nth_error vec1 dv = Some E_L /\
         exists y, nth_error vec dw = Some y /\ nth_error vec1 dw = Some (y + b)%float
    else nth_error vec1 dv = Some x /\ nth_error vec1 dw = nth_error vec dw.
Proof.
  intros Hs HE Hb Hnd H Hdv Hdw.
  unfold AdexUpdate.update in H.
  AdexUpdateFacts.ok_step H vV.
  rewrite Hs in H. cbn [bind] in H. rewrite HE in H. cbn [bind] in H.
  AdexUpdateFacts.ok_step H vidx.
  AdexUpdateFacts.ok_step H vec1'.
  AdexUpdateFacts.ok_step H widx.
  AdexUpdateFacts.ok_step H wv.
  rewrite Hb in H. cbn [bind] in H.
  set (toflip := AdexUpdate.where_ (map (fun x => AdexUpdate.gtb x spike) vV)) in *.
  pose proof (NoDup_app_remove_r _ _ Hnd) as HndV.
  pose proof (NoDup_app_remove_l _ _ Hnd) as HndW.
  assert (HdvW : ~ In dv Wdofs)
    by exact (AdexUpdateFacts.nodup_app_disjoint _ _ _ Hnd (nth_error_In _ _ Hdv)).
  assert (HdwV : ~ In dw Vdofs)
    by (intros Hin; exact (AdexUpdateFacts.nodup_app_disjoint _ _ _ Hnd Hin
                             (nth_error_In _ _ Hdw))).
  destruct (AdexUpdateFacts.gather_nth _ _ _ _ _ E Hdv) as [x [HvVq Hx]].
  exists x. split; [exact Hx |].
  assert (Hflip : In q toflip <-> AdexUpdate.gtb x spike = true).
  { unfold toflip, AdexUpdate.where_. split.
    - intros Hq. destruct (AdexUpdateFacts.where_from_spec _ _ _ Hq) as [q' [Heq Hm]].
      cbn in Heq. subst q'. rewrite nth_error_map, HvVq in Hm. cbn in Hm.
      congruence.
    - intros Hg. apply (AdexFacts.where_from_in 0 _ q).
      rewrite nth_error_map, HvVq. cbn. rewrite Hg. reflexivity. }
  pose proof (AdexUpdateFacts.gather_nodup_in _ _ _ _ _ E0 HndV Hdv) as HinV.
  pose proof (AdexUpdateFacts.gather_nodup_in _ _ _ _ _ E2 HndW Hdw) as HinW.
  assert (Hdv_widx : ~ In dv widx)
    by (intros Hin; exact (HdvW (AdexUpdateFacts.gather_sub _ _ _ _ E2 Hin))).
  assert (Hdw_vidx : ~ In dw vidx)
    by (intros Hin; exact (HdwV (AdexUpdateFacts.gather_sub _ _ _ _ E0 Hin))).
  assert (Hdw1 : nth_error vec1' dw = nth_error vec dw)
    by exact (AdexFacts.scatter_other _ _ _ _ E1 dw Hdw_vidx).
  rewrite (AdexFacts.scatter_other _ _ _ _ H dv Hdv_widx).
  destruct (AdexUpdate.gtb x spike) eqn:Hg.
  - assert (Hq : In q toflip) by (apply Hflip; reflexivity).
    split; [exact (AdexFacts.scatter_const _ _ _ _ E1 dv (proj2 HinV Hq)) |].
    assert (Hw : In dw widx) by exact (proj2 HinW Hq).
    destruct (In_nth_error _ _ Hw) as [t Ht].
    destruct (AdexUpdateFacts.gather_nth _ _ _ _ _ E3 Ht) as [y [Hwy Hy]].
    exists y. split; [rewrite <- Hdw1; exact Hy |].
    apply (AdexUpdateFacts.scatter_uniform _ _ _ _ _ _ H).
    + rewrite length_map. exact (AdexUpdateFacts.gather_length _ _ _ E3).
    + exact Hw.
    + intros t' v Ht' Hv. rewrite nth_error_map in Hv.
      destruct (AdexUpdateFacts.gather_nth _ _ _ _ _ E3 Ht') as [y' [Hwy' Hy']].
      rewrite Hwy' in Hv. cbn in Hv. inversion Hv. congruence.
  - assert (Hq : ~ In q toflip) by (intros Hq; apply Hflip in Hq; discriminate).
    split.
    + rewrite (AdexFacts.scatter_other _ _ _ _ E1 dv); [exact Hx |].
      intros Hin. exact (Hq (proj1 HinV Hin)).
    + rewrite (AdexFacts.scatter_other _ _ _ _ H dw); [exact Hdw1 |].
      intros Hin. exact (Hq (proj1 HinW Hin)).
Qed.

(* ------------------------------------------------------------------------- *)
(** ** [CellModel.set_parameters], [set_initial_conditions] and [__init__] *)

Module ParamFacts.
Import CellModelParams.
Open Scope string_scope.

Lemma od_get_od_set (k k' : string) (v : pvalue) (d : odict) :
  od_get k (od_set k' v d) = if String.eqb k k' then Some v else od_get k d.
Proof.
  induction d as [| [k0 v0] r IH]; cbn.
  - destruct (String.eqb k k'); reflexivity.
  - destruct (String.eqb k' k0) eqn:E0; cbn.
    + apply String.eqb_eq in E0. subst k0. destruct (String.eqb k k'); reflexivity.
    + rewrite IH. destruct (String.eqb k k0) eqn:E1; [| reflexivity].
      apply String.eqb_eq in E1. subst k0.
      destruct (String.eqb k k') eqn:E2; [| reflexivity].
      apply String.eqb_eq in E2. subst k'. rewrite String.eqb_refl in E0. discriminate.
Qed.

Lemma od_mem_od_set (k k' : string) (v : pvalue) (d : odict) :
  od_mem k (od_set k' v d) = String.eqb k k' || od_mem k d.
Proof.
  induction d as [| [k0 v0] r IH]; cbn.
  - rewrite orb_false_r. reflexivity.
  - destruct (String.eqb k' k0) eqn:E0; cbn.
    + apply String.eqb_eq in E0. subst k0.
      destruct (String.eqb k k'); reflexivity.
    + rewrite IH. destruct (String.eqb k k0), (String.eqb k k'), (od_mem k r); reflexivity.
Qed.

Lemma od_keys_od_set (k : string) (v : pvalue) (d : odict) :
  exists new, map fst (od_set k v d) = (map fst d ++ new)%list.
Proof.
  induction d as [| [k0 v0] r IH]; cbn.
  - exists [k]. reflexivity.
  - destruct (String.eqb k k0) eqn:E0; cbn.
    + apply String.eqb_eq in E0. subst k0. exists []. rewrite app_nil_r. reflexivity.
    + destruct IH as [new ->]. exists new. reflexivity.
Qed.

Lemma check_value_size_app (out : list string) (name : string) (v : pvalue) :
  check_value_size out name v = (out ++ check_value_size [] name v)%list.
Proof.
  destruct v as [q | sz]; cbn; [now rewrite app_nil_r |].
  destruct (Nat.eqb sz 1); [now rewrite app_nil_r | reflexivity].
Qed.

Lemma find_app {A : Type} (f : A -> bool) (l1 l2 : list A) :
  find f (l1 ++ l2) = match find f l1 with Some x => Some x | None => find f l2 end.
Proof.
  induction l1 as [| x r IH]; cbn; [reflexivity |]. destruct (f x); [reflexivity | exact IH].
Qed.

(** The setters as folds of a step that updates one dictionary of the
    instance. *)
Section Setter.
Variable get : cell_model -> odict.
Variable step : list string * cell_model -> string * pvalue -> list string * cell_model.
Hypothesis step_get : forall out m n v,
  get (snd (step (out, m) (n, v))) = od_set n v (get m).
Hypothesis step_str : forall out m n v,
  model_str (snd (step (out, m) (n, v))) = model_str m.
Hypothesis step_out : forall out m n v,
  fst (step (out, m) (n, v))
  = check_value_size
      (if od_mem n (get m) then out
       else error out ("'" ++ n ++ "' is not a parameter in " ++ model_str m)) n v.

Lemma setter_get (params : list (string * pvalue)) :
  forall out m k,
  od_get k (get (snd (fold_left step params (out, m))))
  = match find (fun kv => String.eqb k (fst kv)) (rev params) with
    | Some (_, v) => Some v
    | None => od_get k (get m)
    end.
Proof.
  induction params as [| [n v] r IH]; intros out m k; [reflexivity |].
  cbn [fold_left]. destruct (step (out, m) (n, v)) as [out1 m1] eqn:Hs.
  rewrite IH. cbn [rev]. rewrite find_app. cbn [find fst].
  destruct (find (fun kv => String.eqb k (fst kv)) (rev r)) as [[k1 v1] |]; [reflexivity |].
  pose proof (step_get out m n v) as Hg. rewrite Hs in Hg. cbn [snd] in Hg.
  rewrite Hg, od_get_od_set. destruct (String.eqb k n); reflexivity.
Qed.

Lemma setter_keys (params : list (string * pvalue)) :
  forall out m,
  exists new, map fst (get (snd (fold_left step params (out, m)))) = (map fst (get m) ++ new)%list.
Proof.
  induction params as [| [n v] r IH]; intros out m.
  - exists []. rewrite app_nil_r. reflexivity.
  - cbn [fold_left]. destruct (step (out, m) (n, v)) as [out1 m1] eqn:Hs.
    destruct (IH out1 m1) as [new1 Hn1]. rewrite Hn1.
    pose proof (step_get out m n v) as Hg. rewrite Hs in Hg. cbn [snd] in Hg.
    rewrite Hg. destruct (od_keys_od_set n v (get m)) as [new2 ->].
    exists (new2 ++ new1)%list. rewrite app_assoc. reflexivity.
Qed.

Lemma setter_out (params : list (string * pvalue)) :
  NoDup (map fst params) ->
  forall out m,
  exists msgs, fst (fold_left step params (out, m)) = (out ++ msgs)%list /\
  (msgs = [] <-> Forall (fun kv => od_mem (fst kv) (get m) = true /\
                                   check_value_size [] (fst kv) (snd kv) = []) params).
Proof.
  induction params as [| [n v] r IH]; intros Hnd out m.
  - exists []. split; [rewrite app_nil_r; reflexivity |]. split; [constructor | reflexivity].
  - cbn [map] in Hnd. inversion Hnd as [| n' l' Hn Hr]; subst.
    cbn [fold_left]. destruct (step (out, m) (n, v)) as [out1 m1] eqn:Hs.
    destruct (IH Hr out1 m1) as [msgs1 [Hout1 Hiff1]].
    pose proof (step_get out m n v) as Hg. rewrite Hs in Hg. cbn [snd] in Hg.
    pose proof (step_out out m n v) as Ho. rewrite Hs in Ho. cbn [fst] in Ho.
    set (m0 := if od_mem n (get m) then [] else
                 ["'" ++ n ++ "' is not a parameter in " ++ model_str m]).
    assert (Hout : out1 = (out ++ m0 ++ check_value_size [] n v)%list).
    { rewrite Ho, check_value_size_app. unfold m0, error.
      destruct (od_mem n (get m)); rewrite ?app_nil_r, ?app_assoc, ?app_nil_r; reflexivity. }
    exists (m0 ++ check_value_size [] n v ++ msgs1)%list.
    split; [rewrite Hout1, Hout, !app_assoc; reflexivity |].
    assert (Hsame : Forall (fun kv => od_mem (fst kv) (get m1) = true /\
                                      check_value_size [] (fst kv) (snd kv) = []) r
                    <-> Forall (fun kv => od_mem (fst kv) (get m) = true /\
                                      check_value_size [] (fst kv) (snd kv) = []) r).
    { rewrite Hg. split; intros HF; apply Forall_forall; intros [k w] Hk;
        rewrite Forall_forall in HF; specialize (HF (k, w) Hk); cbn in HF |- *;
        rewrite od_mem_od_set in *;
        (assert (String.eqb k n = false) as Ekn
           by (apply String.eqb_neq; intros ->; apply Hn;
               exact (in_map fst _ _ Hk)));
        rewrite Ekn in *; exact HF. }
    split.
    + intros Hnil. apply app_eq_nil in Hnil as [H0 Hnil].
      apply app_eq_nil in Hnil as [H1 H2].
      constructor.
      * cbn. split; [| exact H1]. unfold m0 in H0.
        destruct (od_mem n (get m)); [reflexivity | discriminate].
      * apply Hsame. apply Hiff1. exact H2.
    + intros HF. inversion HF as [| x l [Hmem Hsz] Hrest]; subst. cbn in Hmem, Hsz.
      unfold m0. rewrite Hmem, Hsz. cbn. apply Hiff1. apply Hsame. exact Hrest.
Qed.

End Setter.

Lemma setter_preserves {A : Type} (f : cell_model -> A)
  (step : list string * cell_model -> string * pvalue -> list string * cell_model) :
  (forall out m n v, f (snd (step (out, m) (n, v))) = f m) ->
  forall params out m, f (snd (fold_left step params (out, m))) = f m.
Proof.
  intros Hf params. induction params as [| [n v] r IH]; intros out m; [reflexivity |].
  cbn [fold_left]. destruct (step (out, m) (n, v)) as [out1 m1] eqn:Hs.
  rewrite IH. pose proof (Hf out m n v) as H. rewrite Hs in H. exact H.
Qed.

End ParamFacts.

(** [set_parameters] and [set_initial_conditions] store the last value given
    for each name and leave every other entry as it was; the names already
    present keep their order (new names are appended), and the other
    dictionary and the model's name are untouched. *)
Theorem cell_model_setters_lookup (m : CellModelParams.cell_model)
  (params : list (string * CellModelParams.pvalue)) (k : string) :
  (let m' := snd (CellModelParams.set_parameters m params) in
   CellModelParams.od_get k (CellModelParams._parameters m')
   = match find (fun kv => String.eqb k (fst kv)) (rev params) with
     | Some (_, v) => Some v
     | None => CellModelParams.od_get k (CellModelParams._parameters m)
     end /\
   (exists new, map fst (CellModelParams._parameters m')
                = map fst (CellModelParams._parameters m) ++ new) /\
   CellModelParams._initial_conditions m' = CellModelParams._initial_conditions m /\
   CellModelParams.model_str m' = CellModelParams.model_str m) /\
  (let m' := snd (CellModelParams.set_initial_conditions m params) in
   CellModelParams.od_get k (CellModelParams._initial_conditions m')
   = match find (fun kv => String.eqb k (fst kv)) (rev params) with
     | Some (_, v) => Some v
     | None => CellModelParams.od_get k (CellModelParams._initial_conditions m)
     end /\
   (exists new, map fst (CellModelParams._initial_conditions m')
                = map fst (CellModelParams._initial_conditions m) ++ new) /\
   CellModelParams._parameters m' = CellModelParams._parameters m /\
   CellModelParams.model_str m' = CellModelParams.model_str m).
Proof.
  unfold CellModelParams.set_parameters, CellModelParams.set_initial_conditions.
  split; cbv zeta; (split; [| split; [| split]]).
  - apply (ParamFacts.setter_get CellModelParams._parameters); intros; reflexivity.
  - apply (ParamFacts.setter_keys CellModelParams._parameters); intros; reflexivity.
  - apply (ParamFacts.setter_preserves CellModelParams._initial_conditions); intros; reflexivity.
  - apply (ParamFacts.setter_preserves CellModelParams.model_str); intros; reflexivity.
  - apply (ParamFacts.setter_get CellModelParams._initial_conditions); intros; reflexivity.
  - apply (ParamFacts.setter_keys CellModelParams._initial_conditions); intros; reflexivity.
  - apply (ParamFacts.setter_preserves CellModelParams._parameters); intros; reflexivity.
  - apply (ParamFacts.setter_preserves CellModelParams.model_str); intros; reflexivity.
Qed.

(** For keyword arguments (distinct names), [set_parameters] and
    [set_initial_conditions] print nothing exactly when every name is
    already in the dictionary and every [Function] value has value size 1. *)
Theorem cell_model_setters_silent (m : CellModelParams.cell_model)
  (params : list (string * CellModelParams.pvalue)) :
  NoDup (map fst params) ->
  (fst (CellModelParams.set_parameters m params) = [] <->
   Forall (fun kv => CellModelParams.od_mem (fst kv) (CellModelParams._parameters m) = true /\
                     CellModelParams.check_value_size [] (fst kv) (snd kv) = []) params) /\
  (fst (CellModelParams.set_initial_conditions m params) = [] <->
   Forall (fun kv => CellModelParams.od_mem (fst kv)
                       (CellModelParams._initial_conditions m) = true /\
                     CellModelParams.check_value_size [] (fst kv) (snd kv) = []) params).
Proof.
  intros Hnd.
  unfold CellModelParams.set_parameters, CellModelParams.set_initial_conditions.
  split.
  - match goal with
    | |- fst (fold_left ?st _ _) = [] <-> _ =>
        destruct (ParamFacts.setter_out CellModelParams._parameters st
                    (fun _ _ _ _ => eq_refl) (fun _ _ _ _ => eq_refl) params Hnd [] m)
          as [msgs [Hout Hiff]]
    end.
    rewrite Hout. exact Hiff.
  - match goal with
    | |- fst (fold_left ?st _ _) = [] <-> _ =>
        destruct (ParamFacts.setter_out CellModelParams._initial_conditions st
                    (fun _ _ _ _ => eq_refl) (fun _ _ _ _ => eq_refl) params Hnd [] m)
          as [msgs [Hout Hiff]]
    end.
    rewrite Hout. exact Hiff.
Qed.

(** [AdexManual(params)]: the initial potential is the default [E_L] (-62),
    read before the overrides are applied, whatever [params] sets [E_L] to;
    the parameter [E_L] itself takes the value given. *)
Theorem adex_manual_initial_potential (params : list (string * CellModelParams.pvalue)) :
  let m := snd (CellModelInit.AdexManual_init params []) in
  CellModelParams.od_get "V" (CellModelParams._initial_conditions m)
  = Some (CellModelParams.PNum (-62.0)) /\
  CellModelParams.od_get "E_L" (CellModelParams._parameters m)
  = match find (fun kv => String.eqb "E_L" (fst kv)) (rev params) with
    | Some (_, v) => Some v
    | None => Some (CellModelParams.PNum (-62.0))
    end.
Proof.
  cbv zeta. unfold CellModelInit.AdexManual_init, CellModelInit.CellModel_init.
  destruct params as [| p0 r]; [split; reflexivity |].
  set (m0 := {| CellModelParams.model_str := _ |}).
  destruct (CellModelParams.set_parameters m0 (p0 :: r)) as [out1 m1] eqn:Hs.
  cbn [snd].
  assert (Hm1 : m1 = snd (CellModelParams.set_parameters m0 (p0 :: r))) by (rewrite Hs; reflexivity).
  unfold CellModelParams.set_parameters in Hm1. split.
  - rewrite Hm1. erewrite (ParamFacts.setter_preserves CellModelParams._initial_conditions);
      [reflexivity | intros; reflexivity].
  - rewrite Hm1. erewrite (ParamFacts.setter_get CellModelParams._parameters);
      [reflexivity | intros; reflexivity].
Qed.

(* ------------------------------------------------------------------------- *)
(** ** [MultiCellModel]: the key dictionary and the number of states *)

Module MultiCellFacts.
Import MultiCell.

Lemma pykey_eqb_eq (a b : pykey) : pykey_eqb a b = true <-> a = b.
Proof.
  destruct a as [x |], b as [y |]; cbn; split; intros H; try discriminate; auto.
  - apply Z.eqb_eq in H. subst. reflexivity.
  - inversion H. apply Z.eqb_refl.
Qed.

Lemma dict_get_dict_set (k k' : pykey) (v : nat) (d : list (pykey * nat)) :
  dict_get (dict_set k v d) k' = if pykey_eqb k' k then Ok v else dict_get d k'.
Proof.
  induction d as [| [k0 v0] r IH]; cbn; [destruct (pykey_eqb k' k); reflexivity |].
  destruct (pykey_eqb k k0) eqn:E0; cbn.
  - apply pykey_eqb_eq in E0. subst k0. destruct (pykey_eqb k' k); reflexivity.
  - destruct (pykey_eqb k' k0) eqn:E1.
    + apply pykey_eqb_eq in E1. subst k0.
      destruct (pykey_eqb k' k) eqn:E2; [| reflexivity].
      apply pykey_eqb_eq in E2. subst k'.
      rewrite (proj2 (pykey_eqb_eq k k) eq_refl) in E0. discriminate.
    + exact IH.
Qed.

Lemma combine_snoc {A B : Type} (l1 : list A) (l2 : list B) x y :
  List.length l1 = List.length l2 ->
  combine (l1 ++ [x]) (l2 ++ [y]) = combine l1 l2 ++ [(x, y)].
Proof.
  revert l2. induction l1 as [| a r IH]; intros [| b l2] H; cbn in *; try discriminate.
  - reflexivity.
  - rewrite IH by lia. reflexivity.
Qed.

Lemma dict_zip_snoc (keys : list Z) (x : Z) :
  dict_zip (keys ++ [x]) = dict_set (KInt x) (List.length keys) (dict_zip keys).
Proof.
  unfold dict_zip. rewrite length_app. cbn [List.length].
  rewrite Nat.add_1_r, seq_S, combine_snoc by (rewrite length_seq; reflexivity).
  rewrite fold_left_app. reflexivity.
Qed.

Lemma dict_zip_get_last (keys : list Z) (i : Z) (k : nat) :
  nth_error keys k = Some i ->
  (forall k', (k < k')%nat -> nth_error keys k' <> Some i) ->
  dict_get (dict_zip keys) (KInt i) = Ok k.
Proof.
  revert k. induction keys as [| x r IH] using rev_ind; intros k Hk Hlast;
    [destruct k; discriminate |].
  rewrite dict_zip_snoc, dict_get_dict_set.
  destruct (Nat.lt_ge_cases k (List.length r)) as [Hlt | Hge].
  - rewrite nth_error_app1 in Hk by exact Hlt.
    assert (Hx : pykey_eqb (KInt i) (KInt x) = false).
    { cbn. apply Z.eqb_neq. intros ->. apply (Hlast (List.length r) Hlt).
      rewrite nth_error_app2, Nat.sub_diag by lia. reflexivity. }
    rewrite Hx. apply IH; [exact Hk |].
    intros k' Hk' Hn. apply (Hlast k' Hk').
    rewrite nth_error_app1; [exact Hn |]. apply nth_error_Some. congruence.
  - assert (k = List.length r) as ->.
    { assert (k < List.length (r ++ [x]))%nat by (apply nth_error_Some; congruence).
      rewrite length_app in H. cbn in H. lia. }
    rewrite nth_error_app2, Nat.sub_diag in Hk by lia. cbn in Hk. inversion Hk; subst.
    cbn. rewrite Z.eqb_refl. reflexivity.
Qed.

Lemma dict_zip_get_missing (keys : list Z) (i : Z) :
  ~ In i keys -> dict_get (dict_zip keys) (KInt i) = Err KeyError.
Proof.
  induction keys as [| x r IH] using rev_ind; intros Hi; [reflexivity |].
  rewrite dict_zip_snoc, dict_get_dict_set.
  assert (Hx : pykey_eqb (KInt i) (KInt x) = false).
  { cbn. apply Z.eqb_neq. intros ->. apply Hi. apply in_or_app. right. now left. }
  rewrite Hx. apply IH. intros Hr. apply Hi. apply in_or_app. now left.
Qed.

Lemma fold_max_ge (r : list nat) (x : nat) :
  (x <= fold_left Nat.max r x)%nat /\ forall y, In y r -> (y <= fold_left Nat.max r x)%nat.
Proof.
  revert x. induction r as [| y r IH]; intros x; cbn; [split; [lia | intros _ []] |].
  destruct (IH (Nat.max x y)) as [H1 H2]. split; [lia |].
  intros z [<- | Hz]; [lia | exact (H2 z Hz)].
Qed.

Lemma fold_max_in (r : list nat) (x : nat) :
  fold_left Nat.max r x = x \/ In (fold_left Nat.max r x) r.
Proof.
  revert x. induction r as [| y r IH]; intros x; cbn; [now left |].
  destruct (IH (Nat.max x y)) as [H | H]; [| right; now right].
  rewrite H. destruct (Nat.max_spec x y) as [[_ ->] | [_ ->]]; [right; now left | now left].
Qed.

End MultiCellFacts.

(** [MultiCellModel.F] and [MultiCellModel.I] with index [i] select the
    model at the last position of [i] in [keys] (a later duplicate key
    overrides an earlier one), raising [IndexError] when there is no model
    at that position, and raise [KeyError] when [i] is not among the keys;
    nothing is printed when an index is given. *)
Theorem multi_dispatch_last_key (models : list MultiCell.cell_ops) (keys : list Z)
  (markers : MultiCell.mesh_function) (m : MultiCell.multi_cell_model)
  (v : MultiCell.expr) (s : list MultiCell.expr) (t : Q) (i : Z) :
  MultiCell.MultiCellModel_init models keys markers = Ok m ->
  (forall k, nth_error keys k = Some i ->
   (forall k', (k < k')%nat -> nth_error keys k' <> Some i) ->
   MultiCell.MultiCellModel_F m v s t (Some i)
   = ([], mk <- MultiCell.list_get models k ;; Ok (MultiCell.F mk v s t)) /\
   MultiCell.MultiCellModel_I m v s t (Some i)
   = ([], mk <- MultiCell.list_get models k ;; Ok (MultiCell.I mk v s t))) /\
  (~ In i keys ->
   MultiCell.MultiCellModel_F m v s t (Some i) = ([], Err KeyError) /\
   MultiCell.MultiCellModel_I m v s t (Some i) = ([], Err KeyError)).
Proof.
  intros Hinit. unfold MultiCell.MultiCellModel_init in Hinit.
  destruct (MultiCell.py_max (map MultiCell.num_states models)) as [n |];
    cbn [bind] in Hinit; [| discriminate].
  inversion Hinit; subst m. clear Hinit.
  unfold MultiCell.MultiCellModel_F, MultiCell.MultiCellModel_I. cbn.
  split.
  - intros k Hk Hlast. rewrite (MultiCellFacts.dict_zip_get_last keys i k Hk Hlast).
    split; reflexivity.
  - intros Hi. rewrite (MultiCellFacts.dict_zip_get_missing keys i Hi). split; reflexivity.
Qed.

(** [MultiCellModel.__init__] raises [ValueError] for an empty list of
    models; otherwise its number of states is the largest [num_states()] of
    its models. *)
Theorem multi_num_states_max (models : list MultiCell.cell_ops) (keys : list Z)
  (markers : MultiCell.mesh_function) :
  (models = [] ->
   MultiCell.MultiCellModel_init models keys markers
   = Err (ValueError "max() arg is an empty sequence")) /\
  (forall m, MultiCell.MultiCellModel_init models keys markers = Ok m ->
   (forall c, In c models -> (MultiCell.num_states c <= MultiCell._num_states m)%nat) /\
   exists c, In c models /\ MultiCell.num_states c = MultiCell._num_states m).
Proof.
  split; [intros ->; reflexivity |].
  intros m Hinit. unfold MultiCell.MultiCellModel_init in Hinit.
  destruct models as [| c0 r]; [discriminate |].
  cbn in Hinit. inversion Hinit; subst m. clear Hinit. cbn [MultiCell._num_states].
  destruct (MultiCellFacts.fold_max_ge (map MultiCell.num_states r) (MultiCell.num_states c0))
    as [H0 Hr].
  split.
  - intros c [<- | Hc]; [exact H0 |]. apply Hr. apply in_map. exact Hc.
  - destruct (MultiCellFacts.fold_max_in (map MultiCell.num_states r) (MultiCell.num_states c0))
      as [He | He].
    + exists c0. split; [now left | symmetry; exact He].
    + apply in_map_iff in He. destruct He as [c [Hc Hin]].
      exists c. split; [now right | exact Hc].
Qed.

(* ------------------------------------------------------------------------- *)
(** ** The variational forms of the monodomain solvers *)

Module MonodomainFormsFacts.
Import MonodomainForms.



Lemma zdict_get_map {A : Type} (l : list Z) (e : A) (k : Z) :
  In k l -> zdict_get (map (fun i => (i, e)) l) k = Ok e.
Proof.
  intros Hk. induction l as [| x r IH]; [destruct Hk |]. cbn.
  destruct (Z.eqb k x) eqn:E; [reflexivity |].
  destruct Hk as [-> | Hk]; [rewrite Z.eqb_refl in E; discriminate | exact (IH Hk)].
Qed.







Lemma last_in (tags : list Z) : tags <> [] -> In (List.last tags 0%Z) tags.
Proof.
  induction tags as [| x r IH]; intros H; [contradiction |].
  destruct r as [| y r']; [now left |].
  right. apply IH. discriminate.
Qed.

End MonodomainFormsFacts.



(* ------------------------------------------------------------------------- *)
(** ** The solution generator of the monodomain solvers *)

Module MonodomainSolveFacts.
Import MonodomainSolve.

Section Loop.
Context {St : Type}.
Variable step_ : float -> float -> St -> St.
Variable assign_prev : St -> St.
Variable v__is_function : bool.
Variable end_of_time : float -> float -> float -> float -> bool.

Lemma solve_loop_props (t1 dt : float) (fuel : nat) :
  forall a b s ys fin sf,
  solve_loop step_ assign_prev v__is_function end_of_time fuel t1 dt a b s = (ys, fin, sf) ->
  (List.length ys <= fuel)%nat /\
  (fuel <> O -> nth_error ys 0 = Some (a, b)) /\
  (forall i x y x' y', nth_error ys i = Some (x, y) -> nth_error ys (S i) = Some (x', y') ->
   x' = y /\ y' = (y + dt)%float) /\
  (forall i x y, nth_error ys i = Some (x, y) ->
   (end_of_time t1 x y dt = true <-> fin = true /\ S i = List.length ys)) /\
  (fin = false -> List.length ys = fuel) /\
  (fin = true -> exists x y s', nth_error ys (List.length ys - 1) = Some (x, y) /\
                                sf = step_ x y s').
Proof.
  induction fuel as [| f IH]; intros a b s ys fin sf H.
  - cbn in H. inversion H; subst. cbn.
    split; [lia |]. split; [intros C; contradiction |].
    split; [intros [|i]; discriminate |]. split; [intros [|i]; discriminate |].
    split; [reflexivity | discriminate].
  - cbn in H. destruct (end_of_time t1 a b dt) eqn:Eot.
    + inversion H; subst. cbn.
      split; [lia |]. split; [reflexivity |].
      split; [intros [| [| i]] x y x' y' H1 H2; discriminate |].
      split.
      * intros [| i] x y Hi; [| destruct i; discriminate].
        inversion Hi; subst. rewrite Eot. tauto.
      * split; [discriminate |]. intros _. exists a, b, s. split; reflexivity.
    + destruct (solve_loop step_ assign_prev v__is_function end_of_time f t1 dt b (b + dt)
                  (if v__is_function then assign_prev (step_ a b s) else step_ a b s))
        as [[ys' fin'] sf'] eqn:Hr.
      inversion H; subst ys fin sf. clear H.
      destruct (IH _ _ _ _ _ _ Hr) as [Hlen [H0 [Hch [Heot [Hnf Hf]]]]].
      assert (Hne : fin' = true -> ys' <> []).
      { intros Ht. destruct (Hf Ht) as [x [y [s' [Hn _]]]]. intros ->. destruct (_ - _)%nat; discriminate. }
      cbn [List.length]. split; [lia |]. split; [reflexivity |].
      split.
      * intros [| i] x y x' y' H1 H2.
        -- change (nth_error ys' 0 = Some (x', y')) in H2. cbn in H1.
           inversion H1; subst x y.
           destruct f as [| f']; [destruct ys'; [discriminate | cbn in Hlen; lia] |].
           rewrite (H0 ltac:(discriminate)) in H2. inversion H2. split; reflexivity.
        -- cbn in H1, H2. exact (Hch i x y x' y' H1 H2).
      * split.
        -- intros [| i] x y Hi; cbn in Hi.
           ++ inversion Hi; subst x y. rewrite Eot. split; [discriminate |].
              intros [Ht Hl]. exfalso. apply (Hne Ht). destruct ys'; [reflexivity | cbn in Hl; lia].
           ++ rewrite (Heot i x y Hi). split; intros [Ht Hl]; split; auto; lia.
        -- split; [intros Ht; rewrite (Hnf Ht); reflexivity |].
           intros Ht. destruct (Hf Ht) as [x [y [s' [Hn Hs]]]].
           exists x, y, s'. split; [| exact Hs].
           destruct ys' as [| z ys'']; [destruct (Hne Ht eq_refl) |].
           assert (E1 : (List.length (z :: ys'') - 1 = List.length ys'')%nat)
             by (cbn; lia).
           rewrite E1 in Hn.
           match goal with
           | |- nth_error _ ?n = _ => replace n with (S (List.length ys'')) by (cbn; lia)
           end.
           exact Hn.
Qed.

(** Counted effects of a whole run, for a step with a given effect. *)
Variable count : St -> nat.
Hypothesis count_step : forall x y s, count (step_ x y s) = S (count s).
Hypothesis count_assign : forall s, count (assign_prev s) = count s.

Lemma solve_loop_count (t1 dt : float) (fuel : nat) :
  forall a b s ys fin sf,
  solve_loop step_ assign_prev v__is_function end_of_time fuel t1 dt a b s = (ys, fin, sf) ->
  count sf = (count s + List.length ys)%nat.
Proof.
  induction fuel as [| f IH]; intros a b s ys fin sf H; cbn in H.
  - inversion H; subst. cbn. lia.
  - destruct (end_of_time t1 a b dt).
    + inversion H; subst. cbn. rewrite count_step. lia.
    + destruct (solve_loop step_ assign_prev v__is_function end_of_time f t1 dt b (b + dt)
                  (if v__is_function then assign_prev (step_ a b s) else step_ a b s))
        as [[ys' fin'] sf'] eqn:Hr.
      inversion H; subst. rewrite (IH _ _ _ _ _ _ Hr). cbn [List.length].
      destruct v__is_function; rewrite ?count_assign, count_step; lia.
Qed.

End Loop.

Section Invariant.
Context {St : Type}.
Variable step_ : float -> float -> St -> St.
Variable assign_prev : St -> St.
Variable v__is_function : bool.
Variable end_of_time : float -> float -> float -> float -> bool.
Variable P : St -> Prop.
Hypothesis P_step : forall x y s, P s -> P (step_ x y s).
Hypothesis P_assign : forall s, P s -> P (assign_prev s).

Lemma solve_loop_inv (t1 dt : float) (fuel : nat) :
  forall a b s ys fin sf,
  solve_loop step_ assign_prev v__is_function end_of_time fuel t1 dt a b s = (ys, fin, sf) ->
  P s -> P sf.
Proof.
  induction fuel as [| f IH]; intros a b s ys fin sf H Hs; cbn in H.
  - inversion H; subst. exact Hs.
  - destruct (end_of_time t1 a b dt).
    + inversion H; subst. apply P_step. exact Hs.
    + destruct (solve_loop step_ assign_prev v__is_function end_of_time f t1 dt b (b + dt)
                  (if v__is_function then assign_prev (step_ a b s) else step_ a b s))
        as [[ys' fin'] sf'] eqn:Hr.
      inversion H; subst. apply (IH _ _ _ _ _ _ Hr).
      destruct v__is_function; [apply P_assign |]; apply P_step; exact Hs.
Qed.

End Invariant.

Lemma monodomain_step_counts (p : Monodomain.params) (x y : float) (s : Monodomain.state) :
  let s' := Monodomain.step p x y s in
  Monodomain.linear_solves s' = S (Monodomain.linear_solves s) /\
  Monodomain.rhs_assemblies s' = S (Monodomain.rhs_assemblies s) /\
  (Monodomain.lhs_assemblies s' = Monodomain.lhs_assemblies s \/
   Monodomain.lhs_assemblies s' = S (Monodomain.lhs_assemblies s)) /\
  (Monodomain.prec_assemblies s'
   = if match Monodomain.linear_solver_type_ p with
        | Monodomain.Iterative => Monodomain.use_custom_preconditioner p
        | Monodomain.Direct => false
        end
     then (Monodomain.prec_assemblies s + (Monodomain.lhs_assemblies s'
                                           - Monodomain.lhs_assemblies s))%nat
     else Monodomain.prec_assemblies s).
Proof.
  cbv zeta. unfold Monodomain.step, Monodomain._update_solver.
  destruct (Monodomain.linear_solver_type_ p);
    unfold Monodomain._update_lu_solver, Monodomain._update_krylov_solver;
    destruct (_ <? _)%float; try destruct (Monodomain.use_custom_preconditioner p);
    cbn -[Nat.sub]; repeat split; try (left; reflexivity); try (right; reflexivity); lia.
Qed.

End MonodomainSolveFacts.

(** [BasicMonodomainSolver.solve(t0, t1, dt)] steps at least once, first on
    [(t0, t0 + dt)] whatever [t1] is ([dt] defaults to [t1 - t0]), and each
    further interval starts where the previous one ended and is [dt] long. *)
Theorem monodomain_solve_intervals {St : Type} (step_ : float -> float -> St -> St)
  (assign_prev : St -> St) (v__is_function : bool)
  (end_of_time : float -> float -> float -> float -> bool)
  (fuel : nat) (t0 t1 : float) (dt : option float) (s : St) ys fin sf :
  MonodomainSolve.solve step_ assign_prev v__is_function end_of_time fuel t0 t1 dt s
  = (ys, fin, sf) ->
  let dt' := match dt with Some d => d | None => (t1 - t0)%float end in
  (fuel <> O -> nth_error ys 0 = Some (t0, (t0 + dt')%float)) /\
  (forall i x y x' y', nth_error ys i = Some (x, y) -> nth_error ys (S i) = Some (x', y') ->
   x' = y /\ y' = (y + dt')%float).
Proof.
  intros H dt'. unfold MonodomainSolve.solve in H.
  destruct (MonodomainSolveFacts.solve_loop_props _ _ _ _ _ _ _ _ _ _ _ _ _ H)
    as [_ [H0 [Hch _]]].
  split; [exact H0 | exact Hch].
Qed.

(** [BasicMonodomainSolver.solve] stops right after the first interval for
    which [end_of_time] holds: it holds for the last interval yielded when
    the loop breaks, and for no earlier one; a run that has not broken has
    done all its passes. When it breaks, the final state is the one the last
    [step] produced: [v_] is not advanced after it. *)
Theorem monodomain_solve_stops {St : Type} (step_ : float -> float -> St -> St)
  (assign_prev : St -> St) (v__is_function : bool)
  (end_of_time : float -> float -> float -> float -> bool)
  (fuel : nat) (t0 t1 : float) (dt : option float) (s : St) ys fin sf :
  MonodomainSolve.solve step_ assign_prev v__is_function end_of_time fuel t0 t1 dt s
  = (ys, fin, sf) ->
  let dt' := match dt with Some d => d | None => (t1 - t0)%float end in
  (forall i x y, nth_error ys i = Some (x, y) ->
   (end_of_time t1 x y dt' = true <-> fin = true /\ S i = List.length ys)) /\
  (fin = false -> List.length ys = fuel) /\
  (fin = true -> exists x y s', nth_error ys (List.length ys - 1) = Some (x, y) /\
                                sf = step_ x y s').
Proof.
  intros H dt'. unfold MonodomainSolve.solve in H.
  destruct (MonodomainSolveFacts.solve_loop_props _ _ _ _ _ _ _ _ _ _ _ _ _ H)
    as [_ [_ [_ [Heot [Hnf Hf]]]]].
  split; [exact Heot | split; [exact Hnf | exact Hf]].
Qed.

(** A [MonodomainSolver] asked for an iterative solver with a custom
    preconditioner cannot be built: the constructor raises [KeyError]. Over
    a whole run of any [MonodomainSolver] that is built, the right-hand side
    is assembled and the linear system solved once per interval yielded, the
    left-hand side is assembled once at construction and at most once more
    per interval, and the preconditioner is never assembled. *)
Theorem monodomain_solver_run_counts (theta_ default_timestep : float)
  (solver_type : string) (use_custom : bool) (time0 : float)
  (p : Monodomain.params) (s0 : Monodomain.state) (v__is_function : bool)
  (end_of_time : float -> float -> float -> float -> bool)
  (fuel : nat) (t0 t1 : float) (dt : option float) ys fin sf :
  MonodomainSolve.MonodomainSolver_init theta_ default_timestep "iterative" true time0
  = Err KeyError /\
  (MonodomainSolve.MonodomainSolver_init theta_ default_timestep solver_type use_custom time0
   = Ok (p, s0) ->
   MonodomainSolve.MonodomainSolver_solve p v__is_function end_of_time fuel t0 t1 dt s0
   = (ys, fin, sf) ->
   Monodomain.linear_solves sf = List.length ys /\
   Monodomain.rhs_assemblies sf = List.length ys /\
   (1 <= Monodomain.lhs_assemblies sf <= 1 + List.length ys)%nat /\
   Monodomain.prec_assemblies sf = O).
Proof.
  split; [reflexivity |].
  intros Hinit Hrun.
  unfold MonodomainSolve.MonodomainSolver_solve, MonodomainSolve.solve in Hrun.
  assert (Hp : match Monodomain.linear_solver_type_ p with
               | Monodomain.Iterative => Monodomain.use_custom_preconditioner p
               | Monodomain.Direct => false
               end = false /\
               Monodomain.linear_solves s0 = O /\ Monodomain.rhs_assemblies s0 = O /\
               Monodomain.lhs_assemblies s0 = 1%nat /\
               Monodomain.prec_assemblies s0 = O).
  { unfold MonodomainSolve.MonodomainSolver_init in Hinit.
    destruct (String.eqb solver_type "direct").
    - inversion Hinit; subst. cbn. repeat split.
    - destruct (String.eqb solver_type "iterative"); [| discriminate].
      destruct use_custom; [discriminate |].
      inversion Hinit; subst. cbn. repeat split. }
  destruct Hp as [Hc [Hs0 [Hr0 [Hl0 Hp0]]]].
  rewrite (MonodomainSolveFacts.solve_loop_count _ _ _ _ Monodomain.linear_solves
             (fun x y s => proj1 (MonodomainSolveFacts.monodomain_step_counts p x y s))
             (fun s => eq_refl) _ _ _ _ _ _ _ _ _ Hrun), Hs0.
  rewrite (MonodomainSolveFacts.solve_loop_count _ _ _ _ Monodomain.rhs_assemblies
             (fun x y s => proj1 (proj2 (MonodomainSolveFacts.monodomain_step_counts p x y s)))
             (fun s => eq_refl) _ _ _ _ _ _ _ _ _ Hrun), Hr0.
  split; [reflexivity |]. split; [reflexivity |].
  pose (P := fun s => (Monodomain.lhs_assemblies s <= 1 + Monodomain.rhs_assemblies s
                       <= Monodomain.lhs_assemblies s + Monodomain.rhs_assemblies s)%nat /\
                      Monodomain.prec_assemblies s = O).
  assert (Pstep : forall x y s, P s -> P (Monodomain.step p x y s)).
  { intros x y s Hs.
    destruct (MonodomainSolveFacts.monodomain_step_counts p x y s) as [_ [Hr [Hl Hpr]]].
    unfold P in Hs |- *. rewrite Hc in Hpr. rewrite Hr. destruct Hs as [Hb Hpc].
    rewrite Hpr, Hpc. destruct Hl as [Hl | Hl]; rewrite Hl; split; lia. }
  assert (HP : P sf).
  { apply (MonodomainSolveFacts.solve_loop_inv _ _ _ _ P Pstep (fun s Hs => Hs)
             _ _ _ _ _ _ _ _ _ Hrun).
    unfold P. rewrite Hl0, Hr0, Hp0. split; lia. }
  destruct HP as [Hb Hpc].
  rewrite (MonodomainSolveFacts.solve_loop_count _ _ _ _ Monodomain.rhs_assemblies
             (fun x y s => proj1 (proj2 (MonodomainSolveFacts.monodomain_step_counts p x y s)))
             (fun s => eq_refl) _ _ _ _ _ _ _ _ _ Hrun), Hr0 in Hb.
  split; [lia | exact Hpc].
Qed.

(* ------------------------------------------------------------------------- *)
(** ** Argument binding of the cell solvers' constructors *)

Module PyCallFacts.
Import PyCall.

Lemma fold_kw_err (params : list param) (kws : list string) (e : py_error) :
  fold_left
    (fun acc k =>
       b <- acc ;;
       if negb (name_in k (map pname params)) then Err TypeError
       else if name_in k b then Err TypeError
       else Ok (b ++ [k])%list)
    kws (Err e) = Err e.
Proof. induction kws as [| k r IH]; [reflexivity | exact IH]. Qed.

Lemma fold_kw_unknown (params : list param) (kws : list string) (k : string) :
  In k kws -> name_in k (map pname params) = false ->
  forall acc, (acc = Err TypeError \/ exists b, acc = Ok b) ->
  fold_left
    (fun acc k =>
       b <- acc ;;
       if negb (name_in k (map pname params)) then Err TypeError
       else if name_in k b then Err TypeError
       else Ok (b ++ [k])%list)
    kws acc = Err TypeError.
Proof.
  induction kws as [| k0 r IH]; intros Hk Hn acc Hacc; [destruct Hk |]. cbn [fold_left].
  destruct Hk as [-> | Hk].
  - destruct Hacc as [-> | [b ->]]; cbn [bind]; [apply fold_kw_err |].
    rewrite Hn. apply fold_kw_err.
  - apply IH; [exact Hk | exact Hn |].
    destruct Hacc as [-> | [b ->]]; [now left |]. cbn [bind].
    destruct (negb (name_in k0 (map pname params))); [now left |].
    destruct (name_in k0 b); [now left | right; eauto].
Qed.

End PyCallFacts.

(** A keyword argument that names no parameter of the callee makes the call
    raise [TypeError], whatever the other arguments; so the
    [super().__init__] call of [SingleMultiCellSolver.__init__], which passes
    [reload_ext_modules=] to [MultiCellSolver.__init__], always raises, while
    the [super().__init__] calls of the other cell solvers bind. *)
Theorem single_multi_cell_solver_init_raises :
  (forall (params : list PyCall.param) (npos : nat) (kws : list string) (k : string),
   In k kws -> ~ In k (map PyCall.pname params) ->
   PyCall.bind_args params npos kws = Err TypeError) /\
  PyCall.super_init_call PyCall.SingleMultiCellSolver = Err TypeError /\
  (forall c, c <> PyCall.SingleMultiCellSolver ->
   exists bound, PyCall.super_init_call c = Ok bound).
Proof.
  split; [| split].
  - intros params npos kws k Hk Hn. unfold PyCall.bind_args.
    rewrite (PyCallFacts.fold_kw_unknown params kws k Hk); [reflexivity | | right; eauto].
    unfold PyCall.name_in. apply not_true_iff_false. intros He.
    apply existsb_exists in He. destruct He as [x [Hx Heq]].
    apply String.eqb_eq in Heq. subst x. exact (Hn Hx).
  - reflexivity.
  - intros c Hc. destruct c; try (eexists; reflexivity). contradiction.
Qed.

(* ------------------------------------------------------------------------- *)
(** ** Instances of the properties above on concrete inputs *)

(** Cell 0 spikes (30 > 20): its potential is reset to -62 and its recovery
    variable goes from 0 to 0.061; cell 1 (-70) is left alone. *)
Lemma adex_update_cell_witness :
  AdexUpdate.update CellModelParams.adex_default_parameters [0; 2]%nat [1; 3]%nat
    [30.0; 0.0; -70.0; 1.0]%float = Ok [-62.0; 0.061; -70.0; 1.0]%float /\
  exists x, nth_error [30.0; 0.0; -70.0; 1.0]%float 0 = Some x /\
    if AdexUpdate.gtb x 20.0
    then nth_error [-62.0; 0.061; -70.0; 1.0]%float 0 = Some (-62.0)%float /\
         exists y, nth_error [30.0; 0.0; -70.0; 1.0]%float 1 = Some y /\
                   nth_error [-62.0; 0.061; -70.0; 1.0]%float 1 = Some (y + 0.061)%float
    else nth_error [-62.0; 0.061; -70.0; 1.0]%float 0 = Some x /\
         nth_error [-62.0; 0.061; -70.0; 1.0]%float 1 = nth_error [30.0; 0.0; -70.0; 1.0]%float 1.
Proof.
  split; [vm_compute; reflexivity |].
  apply (adex_update_cell CellModelParams.adex_default_parameters 20.0 (-62.0) 0.061
           [0; 2]%nat [1; 3]%nat [30.0; 0.0; -70.0; 1.0]%float
           [-62.0; 0.061; -70.0; 1.0]%float 0 0 1);
    try reflexivity.
  repeat constructor; cbn; lia.
Defined.

Lemma cell_model_setters_silent_witness :
  let params := [("E_L"%string, CellModelParams.PNum (-70.0)); ("C"%string, CellModelParams.PFunction 1)]
  in NoDup (map fst params) /\
  (fst (CellModelParams.set_parameters CellModelParams.AdexManual params) = [] <->
   Forall (fun kv => CellModelParams.od_mem (fst kv)
                       (CellModelParams._parameters CellModelParams.AdexManual) = true /\
                     CellModelParams.check_value_size [] (fst kv) (snd kv) = []) params) /\
  (fst (CellModelParams.set_initial_conditions CellModelParams.AdexManual params) = [] <->
   Forall (fun kv => CellModelParams.od_mem (fst kv)
                       (CellModelParams._initial_conditions CellModelParams.AdexManual) = true /\
                     CellModelParams.check_value_size [] (fst kv) (snd kv) = []) params).
Proof.
  cbv zeta.
  assert (H : NoDup (map fst [("E_L"%string, CellModelParams.PNum (-70.0));
                              ("C"%string, CellModelParams.PFunction 1)])).
  { repeat constructor; cbn; intuition discriminate. }
  split; [exact H |]. exact (cell_model_setters_silent _ _ H).
Defined.

Lemma multi_dispatch_last_key_witness :
  let c (n : nat) := {| MultiCell.num_states := n; MultiCell.F := fun v s t => s;
                        MultiCell.I := fun v s t => v |} in
  let markers := {| MultiCell.mf_mesh := {| MultiCell.num_cells := 2 |};
                    MultiCell.mf_array := [5; 7]%Z |} in
  exists m,
  MultiCell.MultiCellModel_init [c 1%nat; c 2%nat] [5; 5]%Z markers = Ok m /\
  (forall k, nth_error [5; 5]%Z k = Some 5%Z ->
   (forall k', (k < k')%nat -> nth_error [5; 5]%Z k' <> Some 5%Z) ->
   MultiCell.MultiCellModel_F m (MultiCell.ECur 0) [] 0 (Some 5%Z)
   = ([], mk <- MultiCell.list_get [c 1%nat; c 2%nat] k ;;
          Ok (MultiCell.F mk (MultiCell.ECur 0) [] 0)) /\
   MultiCell.MultiCellModel_I m (MultiCell.ECur 0) [] 0 (Some 5%Z)
   = ([], mk <- MultiCell.list_get [c 1%nat; c 2%nat] k ;;
          Ok (MultiCell.I mk (MultiCell.ECur 0) [] 0))) /\
  (~ In 5%Z [5; 5]%Z ->
   MultiCell.MultiCellModel_F m (MultiCell.ECur 0) [] 0 (Some 5%Z) = ([], Err KeyError) /\
   MultiCell.MultiCellModel_I m (MultiCell.ECur 0) [] 0 (Some 5%Z) = ([], Err KeyError)).
Proof.
  cbv zeta. eexists. split; [reflexivity |].
  eapply multi_dispatch_last_key. reflexivity.
Defined.


(** Stepping from 0 to 1 by 0.25, with a trace of the intervals as state. *)
Lemma monodomain_solve_intervals_witness :
  exists ys fin sf,
  MonodomainSolve.solve (fun a b (s : list (float * float)) => (a, b) :: s) (fun s => s) true
    BeatUtils.end_of_time 10 0.0%float 1.0%float (Some 0.25%float) [] = (ys, fin, sf) /\
  ((10 <> O)%nat -> nth_error ys 0 = Some (0.0%float, (0.0 + 0.25)%float)) /\
  (forall i x y x' y', nth_error ys i = Some (x, y) -> nth_error ys (S i) = Some (x', y') ->
   x' = y /\ y' = (y + 0.25)%float).
Proof.
  do 3 eexists. split; [reflexivity |].
  match goal with
  | |- _ /\ _ =>
      exact (monodomain_solve_intervals (fun a b (s : list (float * float)) => (a, b) :: s)
               (fun s => s) true BeatUtils.end_of_time 10 0.0%float 1.0%float
               (Some 0.25%float) [] _ _ _ eq_refl)
  end.
Defined.

Lemma monodomain_solve_stops_witness :
  exists ys fin sf,
  MonodomainSolve.solve (fun a b (s : list (float * float)) => (a, b) :: s) (fun s => s) true
    BeatUtils.end_of_time 10 0.0%float 1.0%float (Some 0.25%float) [] = (ys, fin, sf) /\
  List.length ys = 4%nat /\ fin = true /\
  (forall i x y, nth_error ys i = Some (x, y) ->
   (BeatUtils.end_of_time 1.0%float x y 0.25%float = true
    <-> fin = true /\ S i = List.length ys)) /\
  (fin = false -> List.length ys = 10%nat) /\
  (fin = true -> exists x y s', nth_error ys (List.length ys - 1) = Some (x, y) /\
                                sf = (x, y) :: s').
Proof.
  do 3 eexists. split; [reflexivity |].
  split; [reflexivity |]. split; [reflexivity |].
  exact (monodomain_solve_stops (fun a b (s : list (float * float)) => (a, b) :: s)
           (fun s => s) true BeatUtils.end_of_time 10 0.0%float 1.0%float
           (Some 0.25%float) [] _ _ _ eq_refl).
Defined.

(** An iterative solver without a custom preconditioner, built with the
    default timestep 1.0 and run from 0 to 1 by 0.25: four solves, and the
    left-hand side reassembled once, at the first step. *)
Lemma monodomain_solver_run_counts_witness :
  exists p s0 ys fin sf,
  MonodomainSolve.MonodomainSolver_init 0.5%float 1.0%float "iterative"%string false 0.0%float
  = Ok (p, s0) /\
  MonodomainSolve.MonodomainSolver_solve p true BeatUtils.end_of_time 10 0.0%float 1.0%float
    (Some 0.25%float) s0 = (ys, fin, sf) /\
  List.length ys = 4%nat /\ Monodomain.lhs_assemblies sf = 2%nat /\
  MonodomainSolve.MonodomainSolver_init 0.5%float 1.0%float "iterative"%string true 0.0%float
  = Err KeyError /\
  Monodomain.linear_solves sf = List.length ys /\
  Monodomain.rhs_assemblies sf = List.length ys /\
  (1 <= Monodomain.lhs_assemblies sf <= 1 + List.length ys)%nat /\
  Monodomain.prec_assemblies sf = O.
Proof.
  do 5 eexists. split; [reflexivity |]. split; [reflexivity |].
  split; [reflexivity |]. split; [reflexivity |].
  refine (let H := monodomain_solver_run_counts 0.5%float 1.0%float "iterative"%string false
                     0.0%float _ _ true BeatUtils.end_of_time 10 0.0%float 1.0%float
                     (Some 0.25%float) _ _ _ in
          conj (proj1 H) (proj2 H eq_refl eq_refl)).
Defined.
